(** * tensorflow_service.py: model acquisition and request serving

    Shallow embedding of
    [src/ai/tensorflow-related/bin/tensorflow-service/tensorflow_service.py].

    - Strings are byte strings ([string]); paths are strings.
    - The file system is a finite map from paths to nodes.
    - Scores (softmax outputs) are rationals: every finite float is a
      rational and the comparisons agree; NaN is not modelled.
    - [argsort] is numpy's default kind: insertion sort for a vector of at
      most 16 entries; what it returns for a longer vector, where equal
      scores may come in any order, is read from the [world].
    - The wall clock is an integer number of ticks.
    - Effects (file system, network, archive extraction, the TensorFlow
      session, the HTTP connection) are threaded through a state and
      error monad over a [world]; what the outside world answers is read
      from the [world]'s oracles, and every effect is appended to the
      [world]'s trace.
    - Console output ([print], click's progress bar) has no influence on
      the control flow and is left out; [tf.logging.fatal] is recorded. *)

From Stdlib Require Import ZArith QArith Lia Sorted.
From Stdlib Require Import Ascii String.
From stdpp Require Import gmap strings list fin_maps sorting.

Local Open Scope Z_scope.
Local Open Scope string_scope.
Local Open Scope nat_scope.

(** ** Top-K reduction (numpy part of [run_inference_on_image]) *)

Module TopK.

(** [predictions[node_id]] on the squeezed vector. *)
Definition score (predictions : list Q) (node_id : nat) : Q :=
  nth node_id predictions 0%Q.

(** One insertion step of the ascending index sort: [i] goes in front of
    the first index whose score is not smaller. *)
Fixpoint insert_index (predictions : list Q) (i : nat) (sorted : list nat)
  : list nat :=
  match sorted with
  | [] => [i]
  | j :: rest =>
      if Qle_bool (score predictions i) (score predictions j)
      then i :: j :: rest
      else j :: insert_index predictions i rest
  end.

Definition sort_indices (predictions : list Q) (idx : list nat) : list nat :=
  foldr (insert_index predictions) [] idx.

(** The indices [0 .. n-1] sorted by insertion: ascending by score, equal
    scores in index order. *)
Definition stable_argsort (predictions : list Q) : list nat :=
  sort_indices predictions (seq 0 (length predictions)).

(** numpy sorts a range of at most this many entries by insertion. *)
Definition SMALL_QUICKSORT : nat := 16.

(** [predictions.argsort()], the indices in ascending order of score, with
    numpy's default kind (quicksort, an introsort).  A vector of at most
    [SMALL_QUICKSORT] entries is sorted by insertion, which keeps equal
    scores in index order.  A longer vector is partitioned first, which
    does not keep that order and depends on the numpy build: what numpy
    returns for it is the parameter [introsort]. *)
Definition argsort (introsort : list Q -> list nat) (predictions : list Q)
  : list nat :=
  if length predictions <=? SMALL_QUICKSORT
  then stable_argsort predictions
  else introsort predictions.

(** What numpy promises of a sort: the indices of the vector, each once,
    in an order of ascending score. *)
Definition sorts_ascending (sort : list Q -> list nat) (predictions : list Q)
  : Prop :=
  sort predictions ≡ₚ seq 0 (length predictions)
  /\ StronglySorted
       (fun i j => (score predictions i <= score predictions j)%Q)
       (sort predictions).

(** Python's [a[start:]]: a negative [start] counts from the end, and the
    bounds are clipped to [0 .. len(a)]. *)
Definition slice_from {A} (start : Z) (a : list A) : list A :=
  let n := Z.of_nat (length a) in
  let s := if (start <? 0)%Z then Z.max 0 (start + n) else Z.min start n in
  drop (Z.to_nat s) a.

(** [predictions.argsort()[-FLAGS.num_top_predictions:][::-1]] *)
Definition top_k (introsort : list Q -> list nat) (predictions : list Q)
           (num_top_predictions : Z) : list nat :=
  reverse (slice_from (- num_top_predictions) (argsort introsort predictions)).

(** Position order of the ascending stable index sort: smaller score
    first, and the smaller index first among equal scores. *)
Definition before (predictions : list Q) (i j : nat) : Prop :=
  (score predictions i < score predictions j)%Q
  \/ (score predictions i == score predictions j /\ i < j).

(** Positions of [r] run by descending score. *)
Definition descending_by_score (predictions : list Q) (r : list nat) : Prop :=
  forall a b i j, a < b -> r !! a = Some i -> r !! b = Some j ->
    (score predictions j <= score predictions i)%Q.

(** The ordering the specification asks of a result [r]: positions run by
    descending score, and the lower index first among equal scores. *)
Definition descending_lower_index_first (predictions : list Q) (r : list nat)
  : Prop :=
  forall a b i j, a < b -> r !! a = Some i -> r !! b = Some j ->
    (score predictions j <= score predictions i)%Q
    /\ (score predictions i == score predictions j -> i < j).

(** The ordering the code produces: descending score, and the higher
    index first among equal scores. *)
Definition descending_higher_index_first (predictions : list Q) (r : list nat)
  : Prop :=
  forall a b i j, a < b -> r !! a = Some i -> r !! b = Some j ->
    (score predictions j <= score predictions i)%Q
    /\ (score predictions i == score predictions j -> j < i).

End TopK.

(** ** Python library functions used by the service *)

Module Py.

Definition starts_with_slash (s : string) : bool :=
  match s with
  | String c _ => bool_decide (c = "/"%char)
  | EmptyString => false
  end.

Fixpoint ends_with_slash (s : string) : bool :=
  match s with
  | EmptyString => false
  | String c EmptyString => bool_decide (c = "/"%char)
  | String _ rest => ends_with_slash rest
  end.

Definition is_empty (s : string) : bool :=
  match s with EmptyString => true | _ => false end.

(** [s.split(sep)] for a one-character separator: never the empty list. *)
Fixpoint split (sep : ascii) (s : string) : list string :=
  match s with
  | EmptyString => [EmptyString]
  | String c rest =>
      if bool_decide (c = sep) then EmptyString :: split sep rest
      else match split sep rest with
           | w :: ws => String c w :: ws
           | [] => [String c EmptyString]
           end
  end.

(** [s.split(sep, 1)]: one or two pieces. *)
Fixpoint split_once (sep : ascii) (s : string) : list string :=
  match s with
  | EmptyString => [EmptyString]
  | String c rest =>
      if bool_decide (c = sep) then [EmptyString; rest]
      else match split_once sep rest with
           | w :: ws => String c w :: ws
           | [] => [String c EmptyString]
           end
  end.

(** [sep.join(parts)] *)
Fixpoint join_with (sep : string) (parts : list string) : string :=
  match parts with
  | [] => EmptyString
  | [p] => p
  | p :: ps => p ++ sep ++ join_with sep ps
  end.

(** [s.replace(a, b)] on single characters. *)
Fixpoint replace_char (a b : ascii) (s : string) : string :=
  match s with
  | EmptyString => EmptyString
  | String c rest =>
      String (if bool_decide (c = a) then b else c) (replace_char a b rest)
  end.

(** [s[n:]] for [n >= 0]. *)
Fixpoint drop_chars (n : nat) (s : string) : string :=
  match n, s with
  | O, _ => s
  | S _, EmptyString => EmptyString
  | S n', String _ rest => drop_chars n' rest
  end.

(** [xs[-1]]; the callers apply it to the result of [split]. *)
Definition last_item (xs : list string) : string := List.last xs EmptyString.

(** *** posixpath *)

(** [os.path.join(a, b)] *)
Definition os_path_join (a b : string) : string :=
  if starts_with_slash b then b
  else if is_empty a || ends_with_slash a then a ++ b
  else a ++ "/" ++ b.

(** The component loop of [os.path.normpath]. *)
Fixpoint norm_comps (initial_slashes : bool) (new_comps comps : list string)
  : list string :=
  match comps with
  | [] => new_comps
  | comp :: rest =>
      if bool_decide (comp = "") || bool_decide (comp = ".")
      then norm_comps initial_slashes new_comps rest
      else if negb (bool_decide (comp = ".."))
              || (negb initial_slashes && bool_decide (new_comps = []))
              || bool_decide (List.last new_comps "" = ".." ∧ new_comps ≠ [])
      then norm_comps initial_slashes (new_comps ++ [comp]) rest
      else norm_comps initial_slashes (removelast new_comps) rest
  end.

(** [os.path.normpath(path)] *)
Definition os_path_normpath (path : string) : string :=
  if is_empty path then "." else
  let initial_slashes :=
    if starts_with_slash path then
      if starts_with_slash (drop_chars 1 path)
         && negb (starts_with_slash (drop_chars 2 path))
      then "//" else "/"
    else "" in
  let new_comps :=
    norm_comps (starts_with_slash path) [] (split "/" path) in
  let path' := initial_slashes ++ join_with "/" new_comps in
  if is_empty path' then "." else path'.

(** [os.path.abspath(path)] for the working directory [cwd]. *)
Definition os_path_abspath (cwd path : string) : string :=
  os_path_normpath
    (if starts_with_slash path then path else os_path_join cwd path).

(** *** urllib.parse *)

Definition hex_digit (c : ascii) : option N :=
  let n := N_of_ascii c in
  if (48 <=? n)%N && (n <=? 57)%N then Some (n - 48)%N
  else if (65 <=? n)%N && (n <=? 70)%N then Some (n - 55)%N
  else if (97 <=? n)%N && (n <=? 102)%N then Some (n - 87)%N
  else None.

(** [urllib.parse.unquote] on byte strings: every [%XX] with two hex digits
    becomes the byte [XX], any other [%] stays.  (The replacement of
    byte sequences that are not UTF-8 is not modelled.) *)
Fixpoint unquote (s : string) : string :=
  match s with
  | EmptyString => EmptyString
  | String c tail =>
      match tail with
      | String a (String b rest) =>
          match bool_decide (c = "%"%char), hex_digit a, hex_digit b with
          | true, Some x, Some y =>
              String (ascii_of_N (16 * x + y)) (unquote rest)
          | _, _, _ => String c (unquote tail)
          end
      | _ => String c (unquote tail)
      end
  end.

(** [urllib.parse.parse_qsl(qs)] with its defaults
    ([keep_blank_values=False], [strict_parsing=False], separator [&]). *)
Definition parse_qsl (qs : string) : list (string * string) :=
  flat_map
    (fun name_value =>
       if is_empty name_value then []
       else match split_once "=" name_value with
            | [name; value] =>
                if negb (is_empty value)
                then [(unquote (replace_char "+" " " name),
                       unquote (replace_char "+" " " value))]
                else []
            | _ => []
            end)
    (split "&" qs).

End Py.

(** ** The world the service runs in *)

Inductive download_failure :=
| InvalidURL (url : string)
| NotADirectory (dst_dir : string)
| TransferFailed
| FileMissing (path_to_filename : string).

(** Exceptions.  [DownloadError] is the source's subclass of
    [RuntimeError]; the others are the library's. *)
Inductive exn :=
| DownloadError (why : download_failure)
| RuntimeError (msg : string)
| URLError
| ConnectionAbortedError
| EOFError
| TarError
| ValueError
| OSError
| IndexError
| KeyError
| TypeError
| NotFoundError (path : string).

Inductive result (A : Type) :=
| Ret (a : A)
| Raise (e : exn)
| OutOfFuel.
Arguments Ret {A} a.
Arguments Raise {A} e.
Arguments OutOfFuel {A}.

Inductive node :=
| Dir
| File (content : string).

(** What one [urllib.request.urlretrieve] call does: it returns (and the
    destination then holds [content], or no file for [None]), or raises. *)
Inductive retrieve_outcome :=
| Retrieved (content : option string)
| RetrieveRaises (e : exn).

(** What one [tarfile.open(..).extractall(..)] does: the members written
    before it returned or raised. *)
Inductive extract_outcome :=
| Extracted (members : list (string * string))
| ExtractRaises (e : exn) (members : list (string * string)).

(** One line of [prediction_result]; the float formatting of [%.5f] and of
    [str.format] is not modelled. *)
Inductive line :=
| PredictionLine (human_string : string) (score : Q)
| TimeLine (elapsed : Z).

Inductive event :=
| EvMakedirs (directory : string)
| EvDownloadModel (url dst_dir : string)
| EvUrlretrieve (url path_to_filename : string)
| EvExtract (archive dest_directory : string) (raised : option exn)
| EvReadFile (path : string)
| EvLoadLabels (label_lookup_path uid_lookup_path : string)
| EvLogFatal (path : string)
| EvCreateGraph
| EvSessRun (image_data : string)
| EvFormat (l : line)
| EvSendResponse (code : Z)
| EvSendHeader (keyword value : string)
| EvEndHeaders
| EvWrite (body : list line)
| EvHandleError (e : exn)
| EvServeForever (ip : string) (port : Z).

Record flags := mkFlags {
  model_dir : string;
  warm_up_image_file : string;
  num_top_predictions : Z;
  httpd_bind_ip : string;
  httpd_bind_port : Z;
}.

Record world := mkWorld {
  fs : gmap string node;            (* keyed by absolute normalised path *)
  cwd : string;
  FLAGS : flags;
  softmax_tensor : bool;            (* the global: [None] until warm-up *)
  clock : Z;                        (* what [time.time()] reads *)
  trace : list event;               (* effects so far, oldest first *)
  net : list retrieve_outcome;      (* answers of the coming urlretrieve calls *)
  tar : list extract_outcome;       (* answers of the coming extractions *)
  engine : string -> list Q;        (* the loaded graph: bytes to softmax *)
  introsort : list Q -> list nat;   (* numpy's argsort beyond 16 entries *)
  parse_uid_to_human : string -> result (gmap string string);
  parse_node_id_to_uid : string -> result (gmap nat string);
  cost : event -> Z;                (* ticks an effect takes *)
}.

Definition with_fs (f : gmap string node) (w : world) : world :=
  mkWorld f (cwd w) (FLAGS w) (softmax_tensor w) (clock w) (trace w)
          (net w) (tar w) (engine w) (introsort w)
          (parse_uid_to_human w)
          (parse_node_id_to_uid w) (cost w).

Definition with_FLAGS (f : flags) (w : world) : world :=
  mkWorld (fs w) (cwd w) f (softmax_tensor w) (clock w) (trace w)
          (net w) (tar w) (engine w) (introsort w)
          (parse_uid_to_human w)
          (parse_node_id_to_uid w) (cost w).

Definition with_softmax_tensor (b : bool) (w : world) : world :=
  mkWorld (fs w) (cwd w) (FLAGS w) b (clock w) (trace w)
          (net w) (tar w) (engine w) (introsort w)
          (parse_uid_to_human w)
          (parse_node_id_to_uid w) (cost w).

Definition with_net (n : list retrieve_outcome) (w : world) : world :=
  mkWorld (fs w) (cwd w) (FLAGS w) (softmax_tensor w) (clock w) (trace w)
          n (tar w) (engine w) (introsort w)
          (parse_uid_to_human w)
          (parse_node_id_to_uid w) (cost w).

Definition with_tar (t : list extract_outcome) (w : world) : world :=
  mkWorld (fs w) (cwd w) (FLAGS w) (softmax_tensor w) (clock w) (trace w)
          (net w) t (engine w) (introsort w)
          (parse_uid_to_human w)
          (parse_node_id_to_uid w) (cost w).

(** An effect is appended to the trace and takes its time. *)
Definition record (e : event) (w : world) : world :=
  mkWorld (fs w) (cwd w) (FLAGS w) (softmax_tensor w)
          (clock w + cost w e)%Z (trace w ++ [e])%list
          (net w) (tar w) (engine w) (introsort w)
          (parse_uid_to_human w)
          (parse_node_id_to_uid w) (cost w).

(** ** State and exception monad *)

Definition M (A : Type) : Type := world -> result A * world.

Definition ret {A} (a : A) : M A := fun w => (Ret a, w).

Definition raise {A} (e : exn) : M A := fun w => (Raise e, w).

Definition bind {A B} (m : M A) (k : A -> M B) : M B :=
  fun w =>
    match m w with
    | (Ret a, w') => k a w'
    | (Raise e, w') => (Raise e, w')
    | (OutOfFuel, w') => (OutOfFuel, w')
    end.

Notation "'let*' x ':=' m 'in' k" := (bind m (fun x => k))
  (at level 10, x name, m at level 100, k at level 200).
Notation "m ';;;' k" := (bind m (fun _ => k))
  (at level 100, k at level 200, right associativity).

Definition gets {A} (f : world -> A) : M A := fun w => (Ret (f w), w).

Definition modify (f : world -> world) : M unit := fun w => (Ret tt, f w).

Definition emit (e : event) : M unit := modify (record e).

Definition lift {A} (r : result A) : M A := fun w => (r, w).

Definition when (b : bool) (m : M unit) : M unit := if b then m else ret tt.

(** [try: m except: handler] for the exceptions [catches] selects. *)
Definition try_except {A} (m : M A) (catches : exn -> bool)
           (handler : exn -> M A) : M A :=
  fun w =>
    match m w with
    | (Raise e, w') => if catches e then handler e w' else (Raise e, w')
    | other => other
    end.

(** ** Operating-system and library effects *)

(** A path names the node its absolute normal form maps to; the empty path
    names nothing ([os.stat('')] fails). *)
Definition lookup_path (w : world) (path : string) : option node :=
  if Py.is_empty path then None
  else fs w !! Py.os_path_abspath (cwd w) path.

Definition os_path_exists (path : string) : M bool :=
  gets (fun w => bool_decide (is_Some (lookup_path w path))).

Definition os_path_isdir (path : string) : M bool :=
  gets (fun w => match lookup_path w path with Some Dir => true | _ => false end).

Definition insert_node (path : string) (n : node) (w : world) : world :=
  with_fs (<[Py.os_path_abspath (cwd w) path := n]> (fs w)) w.

Definition delete_node (path : string) (w : world) : world :=
  with_fs (delete (Py.os_path_abspath (cwd w) path) (fs w)) w.

(** [os.makedirs(directory)] (the ancestors are not tracked); the empty
    path cannot be created. *)
Definition os_makedirs (directory : string) : M unit :=
  if Py.is_empty directory then raise OSError
  else emit (EvMakedirs directory);;; modify (insert_node directory Dir).

(** [tf.gfile.Exists] *)
Definition gfile_exists (path : string) : M bool := os_path_exists path.

(** [tf.logging.fatal]: logs at level FATAL and returns. *)
Definition logging_fatal (path : string) : M unit := emit (EvLogFatal path).

(** [tf.gfile.FastGFile(path, 'rb').read()] and [GFile(path).readlines()] *)
Definition read_file (path : string) : M string :=
  let* n := gets (fun w => lookup_path w path) in
  match n with
  | Some (File content) => emit (EvReadFile path);;; ret content
  | _ => raise (NotFoundError path)
  end.

(** [time.time()] *)
Definition time_time : M Z := gets clock.

(** [urllib.request.urlretrieve(url, path, _progress)]: the network
    answers with the next outcome of [net]; an exhausted list is an
    unreachable network.  The destination cannot be opened for writing
    when it is a directory or the empty path. *)
Definition urlretrieve (url path_to_filename : string) : M unit :=
  emit (EvUrlretrieve url path_to_filename);;;
  let* outcomes := gets net in
  match outcomes with
  | [] => raise URLError
  | o :: rest =>
      modify (with_net rest);;;
      match o with
      | Retrieved content =>
          let* n := gets (fun w => lookup_path w path_to_filename) in
          if Py.is_empty path_to_filename then raise OSError
          else match n, content with
               | Some Dir, _ => raise OSError
               | _, Some c => modify (insert_node path_to_filename (File c))
               | _, None => modify (delete_node path_to_filename)
               end
      | RetrieveRaises e => raise e
      end
  end.

(** The regular files an extraction writes; a directory is never replaced
    by a file. *)
Definition write_member (dest_directory : string) (m : string * string)
           (w : world) : world :=
  let path := Py.os_path_join dest_directory (fst m) in
  match lookup_path w path with
  | Some Dir => w
  | _ => if Py.is_empty path then w else insert_node path (File (snd m)) w
  end.

Definition write_members (dest_directory : string)
           (members : list (string * string)) : M unit :=
  modify (fun w => foldl (fun w m => write_member dest_directory m w) w members).

(** [with tarfile.open(downloaded, 'r:gz') as t: t.extractall(dest)]:
    opening something that is not a file is an [OSError]; otherwise the
    archive behaves as the next outcome of [tar] says, and an exhausted
    list is an unreadable archive. *)
Definition tarfile_extractall (downloaded dest_directory : string) : M unit :=
  let* n := gets (fun w => lookup_path w downloaded) in
  match n with
  | Some (File _) =>
      let* outcomes := gets tar in
      match outcomes with
      | [] =>
          emit (EvExtract downloaded dest_directory (Some TarError));;;
          raise TarError
      | o :: rest =>
          modify (with_tar rest);;;
          match o with
          | Extracted members =>
              emit (EvExtract downloaded dest_directory None);;;
              write_members dest_directory members
          | ExtractRaises e members =>
              emit (EvExtract downloaded dest_directory (Some e));;;
              write_members dest_directory members;;;
              raise e
          end
      end
  | _ =>
      emit (EvExtract downloaded dest_directory (Some OSError));;;
      raise OSError
  end.

(** ** The service *)

Module Service.

Definition DATA_URL : string :=
  "http://download.tensorflow.org/models/image/imagenet/inception-2015-12-05.tgz".

(** *** NodeLookup *)

Definition label_lookup_name : string :=
  "imagenet_2012_challenge_label_map_proto.pbtxt".
Definition uid_lookup_name : string :=
  "imagenet_synset_to_human_label_map.txt".
Definition graph_def_name : string := "classify_image_graph_def.pb".

(** The last loop of [NodeLookup.load]. *)
Fixpoint node_id_to_name (uid_to_human : gmap string string)
         (items : list (nat * string)) (acc : gmap nat string)
  : M (gmap nat string) :=
  match items with
  | [] => ret acc
  | (key, val) :: rest =>
      match uid_to_human !! val with
      | None => logging_fatal val;;; raise KeyError
      | Some name => node_id_to_name uid_to_human rest (<[key := name]> acc)
      end
  end.

(** [NodeLookup.load]; entering it is recorded, and the two text parsers
    are the world's. *)
Definition NodeLookup_load (label_lookup_path uid_lookup_path : string)
  : M (gmap nat string) :=
  emit (EvLoadLabels label_lookup_path uid_lookup_path);;;
  let* uid_exists := gfile_exists uid_lookup_path in
  when (negb uid_exists) (logging_fatal uid_lookup_path);;;
  let* label_exists := gfile_exists label_lookup_path in
  when (negb label_exists) (logging_fatal label_lookup_path);;;
  let* proto_as_ascii_lines := read_file uid_lookup_path in
  let* parse_uid := gets parse_uid_to_human in
  let* uid_to_human := lift (parse_uid proto_as_ascii_lines) in
  let* proto_as_ascii := read_file label_lookup_path in
  let* parse_node := gets parse_node_id_to_uid in
  let* node_id_to_uid := lift (parse_node proto_as_ascii) in
  node_id_to_name uid_to_human (map_to_list node_id_to_uid) ∅.

(** [NodeLookup()] with both paths defaulted. *)
Definition NodeLookup : M (gmap nat string) :=
  let* dir := gets (fun w => model_dir (FLAGS w)) in
  NodeLookup_load (Py.os_path_join dir label_lookup_name)
                  (Py.os_path_join dir uid_lookup_name).

Definition id_to_string (node_lookup : gmap nat string) (node_id : nat)
  : string :=
  match node_lookup !! node_id with
  | None => ""
  | Some name => name
  end.

(** *** The inference engine *)

Definition create_graph : M unit :=
  let* dir := gets (fun w => model_dir (FLAGS w)) in
  let* graph_def := read_file (Py.os_path_join dir graph_def_name) in
  emit EvCreateGraph.

(** [sess.run(softmax_tensor, {'DecodeJpeg/contents:0': image_data})]
    followed by [np.squeeze]. *)
Definition sess_run (image_data : string) : M (list Q) :=
  let* tensor := gets softmax_tensor in
  if tensor then
    emit (EvSessRun image_data);;;
    gets (fun w => engine w image_data)
  else raise TypeError.

Fixpoint warm_up_runs (n : nat) (image_data : string) : M unit :=
  match n with
  | O => ret tt
  | S n' => let* predictions := sess_run image_data in
            warm_up_runs n' image_data
  end.

Definition warm_up_model (image : string) : M unit :=
  let* image_exists := gfile_exists image in
  when (negb image_exists) (logging_fatal image);;;
  let* image_data := read_file image in
  create_graph;;;
  modify (with_softmax_tensor true);;;
  warm_up_runs 10 image_data.

Fixpoint format_predictions (node_lookup : gmap nat string)
         (predictions : list Q) (top_k : list nat) : M (list line) :=
  match top_k with
  | [] => ret []
  | node_id :: rest =>
      let human_string := id_to_string node_lookup node_id in
      let score := TopK.score predictions node_id in
      emit (EvFormat (PredictionLine human_string score));;;
      let* lines := format_predictions node_lookup predictions rest in
      ret (PredictionLine human_string score :: lines)
  end.

Definition run_inference_on_image (image : string) : M (list line) :=
  let* image_exists := gfile_exists image in
  when (negb image_exists) (logging_fatal image);;;
  let* image_data := read_file image in
  let* start_time := time_time in
  let* predictions := sess_run image_data in
  let* node_lookup := NodeLookup in
  let* top_k :=
    gets (fun w => TopK.top_k (introsort w) predictions
                              (num_top_predictions (FLAGS w))) in
  let* prediction_result := format_predictions node_lookup predictions top_k in
  let* now := time_time in
  emit (EvFormat (TimeLine (now - start_time)%Z));;;
  ret (prediction_result ++ [TimeLine (now - start_time)%Z])%list.

(** *** The request handler *)

(** [parse_qsl(path[2:])[0][1]] *)
Definition image_path_of (path : string) : M string :=
  match Py.parse_qsl (Py.drop_chars 2 path) with
  | [] => raise IndexError
  | (_, value) :: _ => ret value
  end.

(** The handler from [print('Will process image ...')] on. *)
Definition serve_image (image_path : string) : M unit :=
  let* prediction_result := run_inference_on_image image_path in
  emit (EvSendResponse 200);;;
  emit (EvSendHeader "Content-type" "text/plain; charset=utf-8");;;
  emit EvEndHeaders;;;
  emit (EvWrite prediction_result).

Definition do_GET (path : string) : M unit :=
  let* image_path := image_path_of path in
  serve_image image_path.

(** *** Model acquisition *)

Definition is_valid_url (url : string) : bool := true.

Definition download_model (url dst_dir : string) : M string :=
  if negb (is_valid_url url) then raise (DownloadError (InvalidURL url))
  else
    let filename := Py.last_item (Py.split "/" url) in
    let* dst_dir :=
      (if Py.is_empty dst_dir
       then gets (fun w => Py.os_path_abspath (cwd w) ".")
       else ret dst_dir) in
    let* isdir := os_path_isdir dst_dir in
    if negb isdir then raise (DownloadError (NotADirectory dst_dir))
    else
      let path_to_filename := Py.os_path_join dst_dir filename in
      try_except
        (urlretrieve url (Py.os_path_join dst_dir filename))
        (fun e => match e with
                  | URLError | ConnectionAbortedError => true
                  | _ => false
                  end)
        (fun e => raise (DownloadError TransferFailed));;;
      let* file_exists := os_path_exists path_to_filename in
      if negb file_exists
      then raise (DownloadError (FileMissing path_to_filename))
      else ret path_to_filename.

Definition excepted_files : list string :=
  [graph_def_name; label_lookup_name; uid_lookup_name].

Fixpoint all_exist (directory : string) (files : list string) : M bool :=
  match files with
  | [] => ret true
  | filename :: rest =>
      let* file_exists := os_path_exists (Py.os_path_join directory filename) in
      if negb file_exists then ret false else all_exist directory rest
  end.

Definition is_extracted_model_dir (directory : string) : M bool :=
  all_exist directory excepted_files.

Definition MAX_RETRY : nat := 2.

Definition is_archive_error (e : exn) : bool :=
  match e with
  | EOFError | TarError => true
  | _ => false
  end.

(** The [while] loop of [maybe_download_and_extract]; its result is
    [tarfile_extracted]. *)
Fixpoint extract_loop (fuel : nat) (dest_directory downloaded : string)
         (tarfile_extracted : bool) (cnt : nat) : M bool :=
  if negb tarfile_extracted && (cnt <? MAX_RETRY) then
    match fuel with
    | O => lift OutOfFuel
    | S fuel' =>
        let* extracted :=
          try_except
            (tarfile_extractall downloaded dest_directory;;; ret true)
            is_archive_error
            (fun e => ret false) in
        if extracted then ret true
        else
          let* downloaded' := download_model DATA_URL dest_directory in
          extract_loop fuel' dest_directory downloaded' false (cnt + 1)
    end
  else ret tarfile_extracted.

Definition maybe_download_and_extract : M unit :=
  let* dest_directory := gets (fun w => model_dir (FLAGS w)) in
  let* valid := is_extracted_model_dir dest_directory in
  if valid then ret tt
  else
    let* dest_exists := os_path_exists dest_directory in
    (if negb dest_exists then os_makedirs dest_directory
     else
       let* isdir := os_path_isdir dest_directory in
       if negb isdir
       then raise (RuntimeError "exists but it is NOT a directory!")
       else ret tt);;;
    let filename := Py.last_item (Py.split "/" DATA_URL) in
    let filepath := Py.os_path_join dest_directory filename in
    let* archive_exists := os_path_exists filepath in
    let* downloaded :=
      (if negb archive_exists then download_model DATA_URL dest_directory
       else ret filepath) in
    let* tarfile_extracted :=
      extract_loop MAX_RETRY dest_directory downloaded false 0 in
    if negb tarfile_extracted
    then raise (RuntimeError "Failed to retrieve model files")
    else ret tt.

(** *** Startup and the serving loop *)

(** [httpd.serve_forever()] over the targets of the GET requests that
    arrive: an exception of the handler is reported by the server
    ([handle_error]), the connection is closed and the loop goes on. *)
Fixpoint serve_forever (requests : list string) : M unit :=
  match requests with
  | [] => ret tt
  | path :: rest =>
      try_except (do_GET path) (fun _ => true)
                 (fun e => emit (EvHandleError e));;;
      serve_forever rest
  end.

Definition default_warm_up_image : M string :=
  gets (fun w =>
          Py.os_path_join (Py.os_path_abspath (cwd w) (model_dir (FLAGS w)))
                          "cropped_panda.jpg").

Definition set_warm_up_image_file (image : string) : M unit :=
  modify (fun w =>
            with_FLAGS (mkFlags (model_dir (FLAGS w)) image
                                (num_top_predictions (FLAGS w))
                                (httpd_bind_ip (FLAGS w))
                                (httpd_bind_port (FLAGS w))) w).

(** The [if] of [main] that falls back to the default image. *)
Definition select_warm_up_image : M unit :=
  let* image := gets (fun w => warm_up_image_file (FLAGS w)) in
  let* image_exists := os_path_exists image in
  if Py.is_empty image || negb image_exists
  then let* default := default_warm_up_image in
       set_warm_up_image_file default
  else ret tt.

(** The last four lines of [main]. *)
Definition run_httpd (requests : list string) : M unit :=
  let* ip := gets (fun w => httpd_bind_ip (FLAGS w)) in
  let* port := gets (fun w => httpd_bind_port (FLAGS w)) in
  emit (EvServeForever ip port);;;
  serve_forever requests.

Definition main (requests : list string) : M unit :=
  maybe_download_and_extract;;;
  select_warm_up_image;;;
  let* image := gets (fun w => warm_up_image_file (FLAGS w)) in
  warm_up_model image;;;
  run_httpd requests.

End Service.

(** ** Vocabulary of the statements, and sample worlds *)

Definition is_extract (e : event) : bool :=
  match e with EvExtract _ _ _ => true | _ => false end.

Definition is_load_labels (e : event) : bool :=
  match e with EvLoadLabels _ _ => true | _ => false end.

Definition is_sess_run (e : event) : bool :=
  match e with EvSessRun _ => true | _ => false end.


Definition count_events (p : event -> bool) (evs : list event) : nat :=
  length (List.filter p evs).

(** Total time the effects [evs] take in [w]. *)
Definition duration (w : world) (evs : list event) : Z :=
  foldr (fun e t => (cost w e + t)%Z) 0%Z evs.

Definition is_dir (w : world) (d : string) : Prop :=
  lookup_path w d = Some Dir.

(** Every directory of [w] is still a directory in [w']. *)
Definition dirs_kept (w w' : world) : Prop :=
  forall d, is_dir w d -> is_dir w' d.

(** Where [maybe_download_and_extract] keeps the archive. *)
Definition archive_path (dest_directory : string) : string :=
  Py.os_path_join dest_directory (Py.last_item (Py.split "/" Service.DATA_URL)).

(** The effects of the retry loop entered with counter [cnt], and its
    result: the shapes a run of the loop can have. *)
Inductive attempts (dest : string) : nat -> list event -> result bool -> Prop :=
| attempts_exhausted cnt :
    Service.MAX_RETRY <= cnt ->
    attempts dest cnt [] (Ret false)
| attempts_extracted cnt archive :
    cnt < Service.MAX_RETRY ->
    attempts dest cnt [EvExtract archive dest None] (Ret true)
| attempts_crashed cnt archive e :
    cnt < Service.MAX_RETRY ->
    Service.is_archive_error e = false ->
    attempts dest cnt [EvExtract archive dest (Some e)] (Raise e)
| attempts_redownload_failed cnt archive e e' :
    cnt < Service.MAX_RETRY ->
    Service.is_archive_error e = true ->
    attempts dest cnt
             [EvExtract archive dest (Some e);
              EvUrlretrieve Service.DATA_URL (archive_path dest)]
             (Raise e')
| attempts_retry cnt archive e evs r :
    cnt < Service.MAX_RETRY ->
    Service.is_archive_error e = true ->
    attempts dest (S cnt) evs r ->
    attempts dest cnt
             (EvExtract archive dest (Some e)
              :: EvUrlretrieve Service.DATA_URL (archive_path dest) :: evs)
             r.


(** The query string of a request target as the specification reads it,
    and as HTTP defines it: what follows the first [?], empty when there
    is none. *)
Fixpoint spec_query_string (target : string) : string :=
  match target with
  | EmptyString => EmptyString
  | String c rest =>
      if bool_decide (c = "?"%char) then rest else spec_query_string rest
  end.

(** What the specification says of the handler: the image is the value of
    the first pair of the query string. *)
Definition serves_first_query_value (w : world) (path : string) : Prop :=
  forall key value rest,
    Py.parse_qsl (spec_query_string path) = (key, value) :: rest ->
    Service.do_GET path w = Service.serve_image value w.

Definition sample_flags : flags :=
  mkFlags "/tmp/imagenet" "" 5 "0.0.0.0" 8080.

(** A world with the given files, network and archive behaviour; the
    engine answers every image with the vector of scenario E, long
    vectors are sorted like short ones, the label maps name class 1 and
    every effect takes one tick. *)
Definition sample_world (files : gmap string node)
           (network : list retrieve_outcome) (archives : list extract_outcome)
  : world :=
  mkWorld files "/home/pi" sample_flags false 0 [] network archives
          (fun _ => [1#10; 7#10; 2#10]%Q)
          TopK.stable_argsort
          (fun _ => Ret {[ "n01" := "panda" ]})
          (fun _ => Ret {[ 1 := "n01" ]})
          (fun _ => 1%Z).

Definition bundle : list (string * string) :=
  [(Service.graph_def_name, "graph"); (Service.label_lookup_name, "labels");
   (Service.uid_lookup_name, "uids"); ("cropped_panda.jpg", "panda")].

(** A model directory that is already populated. *)
Definition installed_files : gmap string node :=
  list_to_map
    (("/tmp/imagenet", Dir)
     :: map (fun m => (Py.os_path_join "/tmp/imagenet" (fst m), File (snd m)))
            bundle).

(** An empty disk, a network that delivers, and an archive that is broken
    at both attempts. *)
Definition broken_archive_world : world :=
  sample_world ∅
    [Retrieved (Some "tgz"); Retrieved (Some "tgz"); Retrieved (Some "tgz")]
    [ExtractRaises EOFError []; ExtractRaises TarError []].


(** A disk with the directory [/tmp] only. *)
Definition tmp_dir_world (network : list retrieve_outcome) : world :=
  sample_world {[ "/tmp" := Dir ]} network [].

(** The populated directory after warm-up: the global tensor is set. *)
Definition warmed_world : world :=
  with_softmax_tensor true (sample_world installed_files [] []).

(** The effects [evs] happening one after the other. *)
Definition records (evs : list event) (w : world) : world :=
  foldl (fun w e => record e w) w evs.

(** What the specification says of the reported time: it is the time of
    the [sess.run] call alone. *)
Definition reports_run_time_only (w : world) (image : string) : Prop :=
  forall lines w' elapsed,
    Service.run_inference_on_image image w = (Ret lines, w') ->
    last lines = Some (TimeLine elapsed) ->
    exists image_data, elapsed = cost w (EvSessRun image_data).

(** What the specification says of the label resolver: one process builds
    it once, however many requests it serves. *)
Definition resolver_built_once (w : world) (requests : list string) : Prop :=
  count_events is_load_labels
    (drop (length (trace w)) (trace (Service.main requests w).2)) = 1.

(** All effects of [m] satisfy [P]. *)
Definition emits_only {A} (P : event -> Prop) (m : M A) : Prop :=
  forall w, exists evs,
    trace (m w).2 = (trace w ++ evs)%list /\ Forall P evs.

(** Effects that do not build the label resolver. *)
Definition not_load_labels (e : event) : Prop := is_load_labels e = false.



(** Strings without the characters the query parser treats specially:
    the pair separator, the escape and the encoded space. *)
Fixpoint unreserved (s : string) : bool :=
  match s with
  | EmptyString => true
  | String c rest =>
      negb (bool_decide (c = "&"%char)) && negb (bool_decide (c = "%"%char))
      && negb (bool_decide (c = "+"%char)) && unreserved rest
  end.


(** The effects of model acquisition. *)
Definition is_acquisition_event (e : event) : bool :=
  match e with
  | EvMakedirs _ | EvUrlretrieve _ _ | EvExtract _ _ _ => true
  | _ => false
  end.

(** The populated directory with label maps that disagree: the label map
    names a UID the UID file does not have. *)
Definition mislabelled_world : world :=
  mkWorld installed_files "/home/pi" sample_flags true 0 [] [] []
          (fun _ => [1#10; 7#10; 2#10]%Q)
          TopK.stable_argsort
          (fun _ => Ret {[ "n01" := "panda" ]})
          (fun _ => Ret {[ 7 := "n07" ]})
          (fun _ => 1%Z).

(** The effects of handling a request. *)
Definition is_request_event (e : event) : bool :=
  match e with
  | EvReadFile _ | EvLoadLabels _ _ | EvLogFatal _ | EvSessRun _ | EvFormat _
  | EvSendResponse _ | EvSendHeader _ _ | EvEndHeaders | EvWrite _ => true
  | _ => false
  end.

(** [m] changes the world by recording effects only, all of them in [P]:
    it leaves the file system, the flags, the session and the oracles as
    they are. *)
Definition only_records {A} (P : event -> Prop) (m : M A) : Prop :=
  forall w, exists evs, (m w).2 = records evs w /\ Forall P evs.

(** Effects of model acquisition only. *)
Definition acquires (e : event) : Prop := is_acquisition_event e = true.

(** The world a warm-up that finds its image and the graph file leaves:
    both files read, the graph created, the global tensor set and ten
    session runs on the image. *)
Definition warmed_up (image image_data : string) (w : world) : world :=
  records (replicate 10 (EvSessRun image_data))
    (with_softmax_tensor true
       (records [EvReadFile image;
                 EvReadFile (Py.os_path_join (model_dir (FLAGS w))
                                             Service.graph_def_name);
                 EvCreateGraph] w)).

(** * Properties *)

(** ** The library functions on examples *)

Example parse_qsl_drops_blank_values :
  Py.parse_qsl (Py.drop_chars 2 "/?image_path=/root/mobike.jpg&a=&b&c=x%20y+z")
  = [("image_path", "/root/mobike.jpg"); ("c", "x y z")].
Proof. vm_compute. reflexivity. Qed.

Example os_path_examples :
  Py.os_path_abspath "/home/pi" "../tmp//imagenet/./x/.." = "/home/tmp/imagenet"
  /\ Py.os_path_abspath "/home/pi" "/tmp/imagenet" = "/tmp/imagenet"
  /\ Py.os_path_join "/tmp/imagenet" "a.pb" = "/tmp/imagenet/a.pb"
  /\ Py.os_path_join "/tmp/imagenet" "/etc/passwd" = "/etc/passwd"
  /\ Py.last_item (Py.split "/" Service.DATA_URL) = "inception-2015-12-05.tgz".
Proof. vm_compute. repeat split. Qed.

(** ** Top-K reduction *)

Module TopKFacts.
Import TopK.

Section Sorting.
Variable predictions : list Q.

Local Abbreviation before := (TopK.before predictions).

Lemma Forall_insert_index (P : nat -> Prop) i sorted :
  P i -> Forall P sorted -> Forall P (insert_index predictions i sorted).
Proof.
  intros Hi Hs. induction Hs as [|j rest Hj Hrest IH]; simpl.
  - by constructor.
  - destruct (Qle_bool _ _); repeat constructor; auto.
Qed.

Lemma length_insert_index i sorted :
  length (insert_index predictions i sorted) = S (length sorted).
Proof.
  induction sorted as [|j rest IH]; simpl; [done|].
  destruct (Qle_bool _ _); simpl; by rewrite ?IH.
Qed.

Lemma length_sort_indices idx :
  length (sort_indices predictions idx) = length idx.
Proof.
  induction idx as [|i idx IH]; simpl; [done|].
  by rewrite length_insert_index, IH.
Qed.

Lemma Forall_sort_indices (P : nat -> Prop) idx :
  Forall P idx -> Forall P (sort_indices predictions idx).
Proof.
  induction 1; simpl; [constructor|]. by apply Forall_insert_index.
Qed.

Lemma before_weaken i j z :
  (score predictions i <= score predictions j)%Q -> i < z ->
  (j = z \/ before j z) -> before i z.
Proof.
  unfold before. intros Hij Hiz [->|[Hlt|[Heq Hjz]]].
  - destruct (Qlt_le_dec (score predictions i) (score predictions z)) as [?|Hge];
      [by left|right; split; [|done]].
    by apply Qle_antisym.
  - left. eapply Qle_lt_trans; eauto.
  - destruct (Qlt_le_dec (score predictions i) (score predictions z)) as [?|Hge];
      [by left|right; split; [|done]].
    apply Qle_antisym; [|done]. by rewrite <- Heq.
Qed.

Lemma insert_index_sorted i sorted :
  StronglySorted before sorted -> Forall (lt i) sorted ->
  StronglySorted before (insert_index predictions i sorted).
Proof.
  induction 1 as [|j rest Hrest IH Hj]; intros Hlt; simpl.
  - repeat constructor.
  - inversion Hlt as [|? ? Hij Hirest]; subst.
    destruct (Qle_bool _ _) eqn:Hle.
    + apply Qle_bool_iff in Hle.
      constructor; [by constructor|].
      constructor; [eapply before_weaken; eauto|].
      rewrite Forall_forall in Hj, Hirest. apply Forall_forall.
      intros z Hz. eapply before_weaken; eauto.
    + constructor; [by apply IH|].
      apply Forall_insert_index; [|done].
      left. apply Qnot_le_lt. intros Hc. apply Qle_bool_iff in Hc. congruence.
Qed.

Lemma sort_indices_sorted idx :
  StronglySorted lt idx -> StronglySorted before (sort_indices predictions idx).
Proof.
  induction 1 as [|i idx Hidx IH Hi]; simpl; [constructor|].
  apply insert_index_sorted; [done|]. by apply Forall_sort_indices.
Qed.

Lemma seq_sorted a n : StronglySorted lt (seq a n).
Proof.
  revert a. induction n as [|n IH]; intros a; simpl; constructor; [apply IH|].
  apply Forall_forall. intros x Hx. apply elem_of_seq in Hx. lia.
Qed.

Lemma stable_argsort_sorted :
  StronglySorted before (stable_argsort predictions).
Proof. apply sort_indices_sorted, seq_sorted. Qed.

Lemma length_stable_argsort :
  length (stable_argsort predictions) = length predictions.
Proof. unfold stable_argsort. by rewrite length_sort_indices, length_seq. Qed.

Lemma insert_index_Permutation i sorted :
  insert_index predictions i sorted ≡ₚ i :: sorted.
Proof.
  induction sorted as [|j rest IH]; simpl; [done|].
  destruct (Qle_bool _ _); [done|]. rewrite IH. apply Permutation_swap.
Qed.

Lemma sort_indices_Permutation idx : sort_indices predictions idx ≡ₚ idx.
Proof.
  induction idx as [|i idx IH]; simpl; [done|].
  by rewrite insert_index_Permutation, IH.
Qed.

Lemma before_le i j :
  before i j -> (score predictions i <= score predictions j)%Q.
Proof.
  intros [Hlt|[Heq _]]; [by apply Qlt_le_weak|]. rewrite Heq. apply Qle_refl.
Qed.

End Sorting.

Lemma StronglySorted_weaken {A} (R S : A -> A -> Prop) (l : list A) :
  (forall x y, R x y -> S x y) -> StronglySorted R l -> StronglySorted S l.
Proof.
  intros HRS. induction 1 as [|x l Hl IH Hx]; constructor; [done|].
  eapply Forall_impl; eauto.
Qed.

Lemma StronglySorted_positions {A} (R : A -> A -> Prop) (l : list A) a b x y :
  StronglySorted R l -> a < b -> l !! a = Some x -> l !! b = Some y -> R x y.
Proof.
  intros Hs. revert a b. induction Hs as [|z l Hl IH Hz]; intros a b Hab Ha Hb.
  - by rewrite lookup_nil in Ha.
  - destruct b as [|b]; [lia|]. destruct a as [|a]; simpl in *.
    + injection Ha as ->. rewrite Forall_forall in Hz. apply Hz.
      by eapply list_elem_of_lookup_2.
    + eapply (IH a b); eauto. lia.
Qed.

Lemma length_slice_from {A} (start : Z) (a : list A) :
  (start <= -1)%Z ->
  length (slice_from start a) = Z.to_nat (Z.min (- start) (Z.of_nat (length a))).
Proof.
  intros Hs. unfold slice_from.
  destruct (Z.ltb_spec start 0); [|lia]. rewrite length_drop. lia.
Qed.

Lemma slice_from_drop {A} (start : Z) (a : list A) :
  exists s, slice_from start a = drop s a.
Proof. unfold slice_from. eauto. Qed.

(** The insertion sort keeps numpy's promise. *)
Lemma stable_argsort_sorts_ascending predictions :
  sorts_ascending stable_argsort predictions.
Proof.
  split; [apply sort_indices_Permutation|].
  eapply StronglySorted_weaken; [apply before_le|apply stable_argsort_sorted].
Qed.

Lemma argsort_small introsort predictions :
  length predictions <= SMALL_QUICKSORT ->
  argsort introsort predictions = stable_argsort predictions.
Proof.
  intros Hn. unfold argsort. by destruct (Nat.leb_spec (length predictions) SMALL_QUICKSORT); [|lia].
Qed.

(** [argsort] keeps the promise whenever the sort of long vectors does. *)
Lemma argsort_sorts_ascending introsort predictions :
  sorts_ascending introsort predictions ->
  sorts_ascending (argsort introsort) predictions.
Proof.
  intros H. unfold sorts_ascending, argsort.
  destruct (length predictions <=? SMALL_QUICKSORT); [|done].
  apply stable_argsort_sorts_ascending.
Qed.

(** C2, as amended: whenever numpy's sort of long vectors returns the
    indices in an order of ascending score, for every probability vector and
    every K >= 1 the top-K reduction returns exactly min(K, n) indices of
    the vector, no index twice, those of the highest scores, ordered by
    descending score.  For a vector of at most 16 entries the HIGHER index
    comes first among equal scores (the ascending insertion sort is
    reversed); for a longer vector the order among equal scores is the
    sort's. *)
Theorem top_k_descending_ties_by_sort
    (introsort : list Q -> list nat) (predictions : list Q) (K : Z) :
  sorts_ascending introsort predictions ->
  (1 <= K)%Z ->
  length (top_k introsort predictions K)
  = Z.to_nat (Z.min K (Z.of_nat (length predictions)))
  /\ NoDup (top_k introsort predictions K)
  /\ (forall i, i ∈ top_k introsort predictions K -> i < length predictions)
  /\ (forall i j, i < length predictions ->
        i ∉ top_k introsort predictions K ->
        j ∈ top_k introsort predictions K ->
        (score predictions i <= score predictions j)%Q)
  /\ descending_by_score predictions (top_k introsort predictions K)
  /\ (length predictions <= SMALL_QUICKSORT ->
      descending_higher_index_first predictions (top_k introsort predictions K)).
Proof.
  intros Hsort HK.
  apply argsort_sorts_ascending in Hsort as [Hperm Hasc].
  assert (Hlen : length (argsort introsort predictions) = length predictions).
  { by rewrite Hperm, length_seq. }
  assert (Hnd : NoDup (argsort introsort predictions)).
  { rewrite Hperm. apply NoDup_seq. }
  split; [|split; [|split; [|split; [|split]]]].
  - unfold top_k. rewrite length_reverse, length_slice_from by lia.
    rewrite Hlen. f_equal. lia.
  - unfold top_k.
    destruct (slice_from_drop (- K) (argsort introsort predictions)) as [s ->].
    rewrite reverse_Permutation.
    rewrite <- (take_drop s (argsort introsort predictions)) in Hnd.
    by apply NoDup_app in Hnd as (_ & _ & Hd).
  - unfold top_k.
    destruct (slice_from_drop (- K) (argsort introsort predictions)) as [s ->].
    intros i Hin. rewrite elem_of_reverse in Hin.
    assert (Hin' : i ∈ argsort introsort predictions).
    { rewrite <- (take_drop s (argsort introsort predictions)).
      apply elem_of_app. by right. }
    rewrite Hperm in Hin'. apply elem_of_seq in Hin'. lia.
  - unfold top_k.
    destruct (slice_from_drop (- K) (argsort introsort predictions)) as [s ->].
    intros i j Hi Hout Hin. rewrite elem_of_reverse in Hout, Hin.
    rewrite <- (take_drop s (argsort introsort predictions)) in Hasc.
    apply StronglySorted_app in Hasc as (Hle & _ & _).
    apply Hle; [|done].
    assert (Hall : i ∈ argsort introsort predictions).
    { rewrite Hperm. apply elem_of_seq. lia. }
    rewrite <- (take_drop s (argsort introsort predictions)) in Hall.
    apply elem_of_app in Hall as [?|?]; [done|by destruct Hout].
  - intros a b i j Hab Ha Hb. unfold top_k in Ha, Hb.
    apply reverse_lookup_Some in Ha as [Ha Hla].
    apply reverse_lookup_Some in Hb as [Hb Hlb].
    unfold slice_from in *. rewrite lookup_drop in Ha, Hb.
    eapply (StronglySorted_positions _ _ _ _ j i Hasc); [|exact Hb|exact Ha].
    lia.
  - intros Hn a b i j Hab Ha Hb. unfold top_k in Ha, Hb.
    rewrite (argsort_small _ _ Hn) in Ha, Hb.
    apply reverse_lookup_Some in Ha as [Ha Hla].
    apply reverse_lookup_Some in Hb as [Hb Hlb].
    unfold slice_from in *. rewrite lookup_drop in Ha, Hb.
    assert (Hji : before predictions j i).
    { eapply (StronglySorted_positions _ _ _ _ j i
                (stable_argsort_sorted predictions)); [|exact Hb|exact Ha].
      lia. }
    destruct Hji as [Hlt|[Heq Hlt]].
    + split; [by apply Qlt_le_weak|].
      intros Heq. rewrite Heq in Hlt. by apply Qlt_irrefl in Hlt.
    + split; [|done]. rewrite Heq. apply Qle_refl.
Qed.

Lemma top_k_descending_ties_by_sort_witness :
  sorts_ascending stable_argsort [1#10; 7#10; 2#10]%Q
  /\ (1 <= 2)%Z
  /\ length (top_k stable_argsort [1#10; 7#10; 2#10]%Q 2) = 2
  /\ descending_by_score [1#10; 7#10; 2#10]%Q
       (top_k stable_argsort [1#10; 7#10; 2#10]%Q 2)
  /\ descending_higher_index_first [1#10; 7#10; 2#10]%Q
       (top_k stable_argsort [1#10; 7#10; 2#10]%Q 2).
Proof.
  split; [apply stable_argsort_sorts_ascending|]. split; [lia|].
  destruct (top_k_descending_ties_by_sort stable_argsort
              [1#10; 7#10; 2#10]%Q 2) as (Hlen & _ & _ & _ & Hdesc & Hties).
  - apply stable_argsort_sorts_ascending.
  - lia.
  - split; [exact Hlen|]. split; [exact Hdesc|]. apply Hties.
    unfold SMALL_QUICKSORT. simpl. lia.
Defined.

(** C2, as stated, fails on a tie: for [0.5, 0.5] and K = 2 the result is
    [1; 0], the higher index first, whatever sorts the long vectors. *)
Lemma top_k_tie_lower_index_last :
  (forall introsort, top_k introsort [1#2; 1#2]%Q 2 = [1; 0])
  /\ ~ descending_lower_index_first [1#2; 1#2]%Q
         (top_k stable_argsort [1#2; 1#2]%Q 2).
Proof.
  split; [reflexivity|].
  intros H. destruct (H 0 1 1 0) as [_ Hlt]; [lia|reflexivity|reflexivity|].
  assert (1 < 0) by (apply Hlt; reflexivity). lia.
Qed.

(** Beyond 16 entries neither tie rule holds in general.  On 18 equal
    scores numpy's partitioning returns the order below, which is ascending
    by score; the top five are then [17; 16; 1; 2; 3]: 16 before 1 is not
    lower index first, 1 before 2 is not higher index first. *)
Example top_k_long_vector_ties :
  let predictions := replicate 18 (1#1000)%Q in
  let numpy_order (_ : list Q) :=
    [0; 15; 14; 13; 12; 11; 10; 9; 8; 7; 6; 5; 4; 3; 2; 1; 16; 17] in
  sorts_ascending numpy_order predictions
  /\ top_k numpy_order predictions 5 = [17; 16; 1; 2; 3]
  /\ ~ descending_higher_index_first predictions (top_k numpy_order predictions 5)
  /\ ~ descending_lower_index_first predictions (top_k numpy_order predictions 5).
Proof.
  cbv zeta. split; [|split; [reflexivity|split]].
  - split.
    + apply (bool_decide_unpack _). vm_compute. reflexivity.
    + repeat first
        [ apply SSorted_nil | apply SSorted_cons | apply Forall_nil_2
        | apply Forall_cons_2; [by vm_compute|] ].
  - intros H. destruct (H 2 3 1 2) as [_ Hlt]; [lia|reflexivity|reflexivity|].
    assert (2 < 1) by (apply Hlt; reflexivity). lia.
  - intros H. destruct (H 1 2 16 1) as [_ Hlt]; [lia|reflexivity|reflexivity|].
    assert (16 < 1) by (apply Hlt; reflexivity). lia.
Qed.

(** The slice [[-0:]] is the whole array: K = 0 returns all n entries. *)
Example top_k_zero_returns_all :
  top_k stable_argsort [1#10; 7#10; 2#10]%Q 0 = [1; 2; 0].
Proof. reflexivity. Qed.

Example top_k_scenario_E :
  top_k stable_argsort [1#10; 7#10; 2#10]%Q 2 = [1; 2].
Proof. reflexivity. Qed.

End TopKFacts.

(** ** The monad and the primitive effects *)

Module ServiceFacts.
Import Service.

Lemma bind_ret {A B} (a : A) (k : A -> M B) w : bind (ret a) k w = k a w.
Proof. reflexivity. Qed.

Lemma bind_gets {A B} (f : world -> A) (k : A -> M B) w :
  bind (gets f) k w = k (f w) w.
Proof. reflexivity. Qed.

Lemma bind_raise {A B} e (k : A -> M B) w :
  bind (raise e) k w = (Raise e, w).
Proof. reflexivity. Qed.

Lemma bind_modify {B} f (k : unit -> M B) w :
  bind (modify f) k w = k tt (f w).
Proof. reflexivity. Qed.

Lemma bind_emit {B} e (k : unit -> M B) w :
  bind (emit e) k w = k tt (record e w).
Proof. reflexivity. Qed.

Lemma bind_assoc {A B C} (m : M A) (k : A -> M B) (h : B -> M C) w :
  bind (bind m k) h w = bind m (fun a => bind (k a) h) w.
Proof. unfold bind. destruct (m w) as [[a|e|] w']; reflexivity. Qed.

(** ** Model acquisition: the directory is already valid *)

Lemma all_exist_spec directory files w :
  all_exist directory files w
  = (Ret (forallb
            (fun f => bool_decide
                        (is_Some (lookup_path w (Py.os_path_join directory f))))
            files), w).
Proof.
  induction files as [|f files IH]; [reflexivity|].
  simpl. unfold os_path_exists. rewrite bind_gets.
  destruct (bool_decide _); simpl; [apply IH|reflexivity].
Qed.

Lemma acquisition_skipped (w : world) :
  forallb
    (fun f => bool_decide
                (is_Some (lookup_path w (Py.os_path_join (model_dir (FLAGS w)) f))))
    excepted_files = true ->
  maybe_download_and_extract w = (Ret tt, w).
Proof.
  intros Hall. unfold maybe_download_and_extract, is_extracted_model_dir.
  rewrite bind_gets. unfold bind at 1. by rewrite all_exist_spec, Hall.
Qed.

(** C3: when the model directory already holds the three required files,
    [maybe_download_and_extract] returns at once and leaves the world as it
    was: no network access, no change of the directory, no effect at all. *)
Theorem valid_model_dir_returns_immediately (w : world) :
  (forall filename, filename ∈ excepted_files ->
     is_Some (lookup_path w (Py.os_path_join (model_dir (FLAGS w)) filename))) ->
  maybe_download_and_extract w = (Ret tt, w).
Proof.
  intros Hfiles. apply acquisition_skipped.
  apply forallb_forall. intros f Hf.
  apply bool_decide_eq_true. apply Hfiles. by apply list_elem_of_In.
Qed.

Lemma valid_model_dir_returns_immediately_witness :
  maybe_download_and_extract (sample_world installed_files [] [])
  = (Ret tt, sample_world installed_files [] []).
Proof.
  apply valid_model_dir_returns_immediately.
  intros filename Hf. unfold excepted_files in Hf.
  repeat (apply elem_of_cons in Hf as [->|Hf]); [| | |by apply elem_of_nil in Hf];
    vm_compute; eauto.
Defined.

(** ** The request handler *)

(** C6, as amended: when the request target, without its first two
    characters, parses to at least one key/value pair, the handler serves
    the value of the first pair, whatever its key is and whatever follows:
    two targets whose first pairs carry the same value are served alike.
    This is the first pair of the query string for a target of the form
    [/?query]. *)
Theorem do_GET_serves_first_pair_of_stripped_target
        (path key value : string) (rest : list (string * string)) (w : world) :
  Py.parse_qsl (Py.drop_chars 2 path) = (key, value) :: rest ->
  do_GET path w = serve_image value w
  /\ (forall path' key' rest',
        Py.parse_qsl (Py.drop_chars 2 path') = (key', value) :: rest' ->
        do_GET path' w = do_GET path w)
  /\ (forall query,
        path = ("/?" ++ query)%string ->
        spec_query_string path = Py.drop_chars 2 path
        /\ serves_first_query_value w path).
Proof.
  intros Hq.
  assert (Hserve : forall p k v r,
            Py.parse_qsl (Py.drop_chars 2 p) = (k, v) :: r ->
            do_GET p w = serve_image v w).
  { intros p k v r Hp. unfold do_GET, image_path_of. by rewrite Hp. }
  split; [by eapply Hserve|]. split.
  - intros path' key' rest' Hq'.
    by rewrite (Hserve _ _ _ _ Hq), (Hserve _ _ _ _ Hq').
  - intros query ->. split; [reflexivity|].
    intros k v r Hp. by eapply Hserve.
Qed.

Lemma do_GET_serves_first_pair_of_stripped_target_witness :
  Py.parse_qsl (Py.drop_chars 2 "/?foo=/root/a.jpg&image_path=/root/b.jpg")
  = [("foo", "/root/a.jpg"); ("image_path", "/root/b.jpg")]
  /\ do_GET "/?foo=/root/a.jpg&image_path=/root/b.jpg" warmed_world
     = serve_image "/root/a.jpg" warmed_world
  /\ do_GET "/?image_path=/root/a.jpg" warmed_world
     = do_GET "/?foo=/root/a.jpg&image_path=/root/b.jpg" warmed_world
  /\ serves_first_query_value warmed_world
       "/?foo=/root/a.jpg&image_path=/root/b.jpg".
Proof.
  split; [vm_compute; reflexivity|].
  destruct (do_GET_serves_first_pair_of_stripped_target
              "/?foo=/root/a.jpg&image_path=/root/b.jpg"
              "foo" "/root/a.jpg" [("image_path", "/root/b.jpg")] warmed_world)
    as (Hserve & Hsame & Hquery); [vm_compute; reflexivity|].
  split; [exact Hserve|]. split.
  - apply (Hsame "/?image_path=/root/a.jpg" "image_path" []).
    vm_compute. reflexivity.
  - apply (Hquery "foo=/root/a.jpg&image_path=/root/b.jpg"). reflexivity.
Defined.

(** C6, as stated, fails when the target does not start with [/?]: the
    query string of [/a=b?image_path=/x.jpg] holds the one pair
    (image_path, /x.jpg), but the handler strips [/a], parses the rest as
    one pair with an empty key, and infers on [b?image_path=/x.jpg]. *)
Lemma do_GET_ignores_the_question_mark :
  Py.parse_qsl (spec_query_string "/a=b?image_path=/x.jpg")
  = [("image_path", "/x.jpg")]
  /\ image_path_of "/a=b?image_path=/x.jpg" warmed_world
     = (Ret "b?image_path=/x.jpg", warmed_world)
  /\ ~ serves_first_query_value warmed_world "/a=b?image_path=/x.jpg".
Proof.
  split; [vm_compute; reflexivity|]. split; [vm_compute; reflexivity|].
  intros H. specialize (H "image_path" "/x.jpg" [] eq_refl).
  apply (f_equal fst) in H. vm_compute in H. discriminate.
Qed.

(** C10: when the request target, without its first two characters, parses
    to no key/value pair, the handler raises [IndexError] before any
    effect: nothing is sent to the client; the server only reports the
    error. *)
Theorem do_GET_without_pair_raises (path : string) (w : world) :
  Py.parse_qsl (Py.drop_chars 2 path) = [] ->
  do_GET path w = (Raise IndexError, w)
  /\ serve_forever [path] w = (Ret tt, record (EvHandleError IndexError) w).
Proof.
  intros Hq.
  assert (H : do_GET path w = (Raise IndexError, w)).
  { unfold do_GET, image_path_of. rewrite Hq. reflexivity. }
  split; [exact H|].
  simpl. unfold bind, try_except. rewrite H. reflexivity.
Qed.

Lemma do_GET_without_pair_raises_witness :
  Py.parse_qsl (Py.drop_chars 2 "/") = []
  /\ do_GET "/" (sample_world installed_files [] [])
     = (Raise IndexError, sample_world installed_files [] [])
  /\ serve_forever ["/"] (sample_world installed_files [] [])
     = (Ret tt, record (EvHandleError IndexError)
                       (sample_world installed_files [] [])).
Proof.
  split; [reflexivity|].
  apply do_GET_without_pair_raises. reflexivity.
Defined.

(** ** Directories persist *)

Lemma dirs_kept_refl w : dirs_kept w w.
Proof. by intros d. Qed.

Lemma dirs_kept_trans w1 w2 w3 :
  dirs_kept w1 w2 -> dirs_kept w2 w3 -> dirs_kept w1 w3.
Proof. intros H12 H23 d Hd. by apply H23, H12. Qed.

Lemma dirs_kept_insert_file p c w :
  lookup_path w p <> Some Dir -> Py.is_empty p = false ->
  dirs_kept w (insert_node p (File c) w).
Proof.
  unfold dirs_kept, is_dir, lookup_path, insert_node. simpl.
  intros Hp Hpe q Hq. rewrite Hpe in Hp. destruct (Py.is_empty q); [done|].
  rewrite lookup_insert_ne; [done|]. intros Heq. by rewrite Heq in Hp.
Qed.


Lemma dirs_kept_delete_file p w :
  lookup_path w p <> Some Dir -> Py.is_empty p = false ->
  dirs_kept w (delete_node p w).
Proof.
  unfold dirs_kept, is_dir, lookup_path, delete_node. simpl.
  intros Hp Hpe q Hq. rewrite Hpe in Hp. destruct (Py.is_empty q); [done|].
  rewrite lookup_delete_ne; [done|]. intros Heq. by rewrite Heq in Hp.
Qed.


Lemma dirs_kept_write_member dest m w : dirs_kept w (write_member dest m w).
Proof.
  unfold write_member.
  destruct (lookup_path w (Py.os_path_join dest m.1)) as [[|c]|] eqn:Hl;
    [apply dirs_kept_refl| |];
    (destruct (Py.is_empty _) eqn:He; [apply dirs_kept_refl|];
     apply dirs_kept_insert_file; [by rewrite Hl|done]).
Qed.

Lemma dirs_kept_write_members dest members w :
  dirs_kept w (foldl (fun w m => write_member dest m w) w members).
Proof.
  revert w. induction members as [|m members IH]; intros w; simpl.
  - apply dirs_kept_refl.
  - eapply dirs_kept_trans; [apply dirs_kept_write_member|apply IH].
Qed.

Lemma trace_write_members dest members w :
  trace (foldl (fun w m => write_member dest m w) w members) = trace w.
Proof.
  revert w. induction members as [|m members IH]; intros w; simpl; [done|].
  rewrite IH. unfold write_member.
  destruct (lookup_path _ _) as [[|c]|]; [done| |];
    by destruct (Py.is_empty _).
Qed.

(** ** What the primitive effects do *)

Ltac trivial_effect := repeat split; first [done | by intros ? ?].

Lemma urlretrieve_spec url path w :
  trace (urlretrieve url path w).2 = (trace w ++ [EvUrlretrieve url path])%list
  /\ dirs_kept w (urlretrieve url path w).2
  /\ (urlretrieve url path w).1 <> OutOfFuel.
Proof.
  unfold urlretrieve, emit, bind, modify, gets, raise. simpl.
  destruct (net w) as [|[content|e] rest]; simpl;
    [trivial_effect| |trivial_effect].
  destruct (Py.is_empty path) eqn:He; [trivial_effect|].
  set (w1 := with_net rest (record (EvUrlretrieve url path) w)).
  change (lookup_path w path) with (lookup_path w1 path).
  destruct (lookup_path w1 path) as [[|c]|] eqn:Hl; [trivial_effect| |];
    (destruct content as [c'|]; simpl;
     (split; [done|]); (split; [|done]);
     (eapply dirs_kept_trans; [apply (dirs_kept_refl w : dirs_kept w w1)|]);
     [apply dirs_kept_insert_file|apply dirs_kept_delete_file];
     first [by rewrite Hl|done]).
Qed.

Lemma tarfile_extractall_spec archive dest w :
  exists raised,
    trace (tarfile_extractall archive dest w).2
    = (trace w ++ [EvExtract archive dest raised])%list
    /\ dirs_kept w (tarfile_extractall archive dest w).2
    /\ (tarfile_extractall archive dest w).1
       = match raised with None => Ret tt | Some e => Raise e end.
Proof.
  unfold tarfile_extractall, emit, bind, modify, gets, raise, write_members.
  simpl.
  destruct (lookup_path w archive) as [[|c]|];
    [exists (Some OSError); trivial_effect| |exists (Some OSError); trivial_effect].
  destruct (tar w) as [|[members|e members] rest]; simpl.
  - exists (Some TarError). trivial_effect.
  - exists None. rewrite trace_write_members. repeat split; [].
    eapply dirs_kept_trans; [|apply dirs_kept_write_members]. by intros ?.
  - exists (Some e). rewrite trace_write_members. repeat split; [].
    eapply dirs_kept_trans; [|apply dirs_kept_write_members]. by intros ?.
Qed.

(** [download_model] into a directory: the part after the two checks. *)
Lemma download_model_into_dir url dst_dir w :
  Py.is_empty dst_dir = false -> is_dir w dst_dir ->
  download_model url dst_dir w
  = (let path := Py.os_path_join dst_dir (Py.last_item (Py.split "/" url)) in
     try_except (urlretrieve url path)
       (fun e => match e with
                 | URLError | ConnectionAbortedError => true
                 | _ => false
                 end)
       (fun e => raise (DownloadError TransferFailed));;;
     let* file_exists := os_path_exists path in
     if negb file_exists then raise (DownloadError (FileMissing path))
     else ret path) w.
Proof.
  intros He Hd. unfold download_model. simpl. rewrite He.
  rewrite bind_ret. unfold os_path_isdir. rewrite bind_gets.
  unfold is_dir in Hd. by rewrite Hd.
Qed.

Lemma download_model_spec url dst_dir w r w' :
  Py.is_empty dst_dir = false -> is_dir w dst_dir ->
  download_model url dst_dir w = (r, w') ->
  trace w'
  = (trace w ++ [EvUrlretrieve url
                   (Py.os_path_join dst_dir (Py.last_item (Py.split "/" url)))])%list
  /\ dirs_kept w w'
  /\ r <> OutOfFuel.
Proof.
  intros He Hd. rewrite download_model_into_dir by done. simpl.
  set (path := Py.os_path_join dst_dir (Py.last_item (Py.split "/" url))).
  destruct (urlretrieve_spec url path w) as (Ht & Hk & Hf).
  unfold bind at 1, try_except.
  destruct (urlretrieve url path w) as [[[]|e|] w1]; simpl in *; [| |done].
  - unfold os_path_exists. rewrite bind_gets.
    destruct (bool_decide _); simpl; intros [= <- <-]; by repeat split.
  - destruct e; simpl; intros [= <- <-]; by repeat split.
Qed.

(** Two of the three failures of the download task are reported as
    [DownloadError]: a destination that is not a directory ... *)
Lemma download_model_not_a_directory url dst_dir w :
  Py.is_empty dst_dir = false -> ~ is_dir w dst_dir ->
  download_model url dst_dir w
  = (Raise (DownloadError (NotADirectory dst_dir)), w).
Proof.
  intros He Hd. unfold download_model. simpl. rewrite He.
  rewrite bind_ret. unfold os_path_isdir. rewrite bind_gets.
  unfold is_dir in Hd.
  by destruct (lookup_path w dst_dir) as [[|c]|].
Qed.

(** ... and a transfer that raises [URLError] or [ConnectionAbortedError],
    or that returns and leaves no file at the destination path. *)
Lemma download_model_transfer_failed url dst_dir e rest w :
  Py.is_empty dst_dir = false -> is_dir w dst_dir ->
  net w = RetrieveRaises e :: rest ->
  e = URLError \/ e = ConnectionAbortedError ->
  (download_model url dst_dir w).1 = Raise (DownloadError TransferFailed).
Proof.
  intros He Hd Hnet Ho. rewrite download_model_into_dir by done. simpl.
  unfold bind at 1, try_except, urlretrieve, emit, bind, modify, gets, raise.
  simpl. rewrite Hnet. by destruct Ho as [->| ->].
Qed.

Lemma download_model_file_missing url dst_dir rest w :
  let path := Py.os_path_join dst_dir (Py.last_item (Py.split "/" url)) in
  Py.is_empty dst_dir = false -> is_dir w dst_dir ->
  Py.is_empty path = false -> ~ is_dir w path ->
  net w = Retrieved None :: rest ->
  (download_model url dst_dir w).1 = Raise (DownloadError (FileMissing path)).
Proof.
  intros path He Hd Hpe Hp Hnet. rewrite download_model_into_dir by done.
  simpl. fold path.
  unfold bind at 1, try_except, urlretrieve, emit, bind, modify, gets, raise.
  simpl. rewrite Hnet. simpl. rewrite Hpe.
  set (w1 := with_net rest (record (EvUrlretrieve url path) w)).
  assert (Hgone : lookup_path (delete_node path w1) path = None).
  { unfold lookup_path, delete_node. simpl. rewrite Hpe.
    apply lookup_delete_eq. }
  unfold is_dir in Hp. change (lookup_path w path) with (lookup_path w1 path) in Hp.
  destruct (lookup_path w1 path) as [[|c]|] eqn:Hl; [done| |];
    simpl; unfold os_path_exists, bind, gets; simpl; rewrite Hgone;
    (rewrite bool_decide_eq_false_2; [done|]); by intros [? ?].
Qed.

(** ** The retry loop *)

Lemma attempts_not_out_of_fuel dest cnt evs r :
  attempts dest cnt evs r -> r <> OutOfFuel.
Proof. induction 1; congruence. Qed.

Lemma extract_loop_attempts dest fuel :
  forall cnt downloaded w r w',
    MAX_RETRY - cnt <= fuel ->
    Py.is_empty dest = false -> is_dir w dest ->
    extract_loop fuel dest downloaded false cnt w = (r, w') ->
    exists evs,
      trace w' = (trace w ++ evs)%list /\ attempts dest cnt evs r.
Proof.
  induction fuel as [|fuel IH]; intros cnt downloaded w r w' Hfuel He Hd.
  - simpl. destruct (Nat.ltb_spec cnt MAX_RETRY) as [Hlt|Hge]; [lia|].
    simpl. intros [= <- <-]. exists []. rewrite app_nil_r.
    split; [done|by constructor].
  - simpl. destruct (Nat.ltb_spec cnt MAX_RETRY) as [Hlt|Hge]; simpl.
    2:{ intros [= <- <-]. exists []. rewrite app_nil_r.
        split; [done|by constructor]. }
    destruct (tarfile_extractall_spec downloaded dest w) as (raised & Ht & Hk & Hr).
    unfold bind at 1, try_except. unfold bind at 1.
    destruct (tarfile_extractall downloaded dest w) as [r1 w1]; simpl in *.
    subst r1. destruct raised as [e|]; simpl.
    2:{ intros [= <- <-]. eexists. split; [exact Ht|by constructor]. }
    destruct (is_archive_error e) eqn:Harch; simpl.
    2:{ intros [= <- <-]. eexists. split; [exact Ht|by constructor]. }
    unfold bind at 1.
    destruct (download_model DATA_URL dest w1) as [r2 w2] eqn:Hdl.
    apply download_model_spec in Hdl as (Ht2 & Hk2 & Hf2); [|done|by apply Hk].
    destruct r2 as [downloaded'|e'|]; [| |done].
    + intros Hloop. apply IH in Hloop as (evs & Ht3 & Hat);
        [|lia|done|by apply Hk2, Hk].
      exists (EvExtract downloaded dest (Some e)
              :: EvUrlretrieve DATA_URL (archive_path dest) :: evs).
      split.
      * rewrite Ht3, Ht2, Ht. by rewrite <- !app_assoc.
      * constructor; [done|done|]. by rewrite Nat.add_1_r in Hat.
    + intros [= <- <-]. eexists. split.
      * rewrite Ht2, Ht. rewrite <- app_assoc. reflexivity.
      * by constructor.
Qed.

(** ** The shape of an acquisition run *)

Lemma is_dir_not_empty w d : is_dir w d -> Py.is_empty d = false.
Proof. unfold is_dir, lookup_path. by destruct (Py.is_empty d). Qed.

Lemma prepare_directory_spec dest (dest_exists : bool) w r w' :
  (if negb dest_exists then os_makedirs dest
   else
     let* isdir := os_path_isdir dest in
     if negb isdir
     then raise (RuntimeError "exists but it is NOT a directory!")
     else ret tt) w = (r, w') ->
  exists prefix,
    trace w' = (trace w ++ prefix)%list
    /\ Forall (fun e => is_extract e = false) prefix
    /\ ((exists e, r = Raise e) \/ (r = Ret tt /\ is_dir w' dest)).
Proof.
  unfold os_path_isdir, os_makedirs.
  destruct dest_exists; simpl.
  - rewrite bind_gets. destruct (lookup_path w dest) as [[|c]|] eqn:Hl; simpl;
      intros [= <- <-]; exists []; rewrite app_nil_r; eauto 6.
  - destruct (Py.is_empty dest) eqn:He.
    + intros [= <- <-]. exists []. rewrite app_nil_r; eauto 6.
    + intros [= <- <-]. exists [EvMakedirs dest]. simpl.
      split; [done|]. split; [by repeat constructor|]. right. split; [done|].
      unfold is_dir, lookup_path, insert_node. simpl. rewrite He.
      apply lookup_insert_eq.
Qed.

Lemma acquisition_shape w r w' :
  is_extracted_model_dir (model_dir (FLAGS w)) w = (Ret false, w) ->
  maybe_download_and_extract w = (r, w') ->
  exists prefix evs,
    trace w' = (trace w ++ prefix ++ evs)%list
    /\ Forall (fun e => is_extract e = false) prefix
    /\ ((evs = [] /\ exists e, r = Raise e)
        \/ exists rl,
            attempts (model_dir (FLAGS w)) 0 evs rl
            /\ ((rl = Ret true /\ r = Ret tt)
                \/ (rl = Ret false /\ exists e, r = Raise e)
                \/ (exists e, rl = Raise e /\ r = Raise e))).
Proof.
  intros Hinvalid. unfold maybe_download_and_extract. rewrite bind_gets.
  unfold bind at 1. rewrite Hinvalid. set (dest := model_dir (FLAGS w)).
  unfold os_path_exists at 1. rewrite bind_gets. unfold bind at 1.
  match goal with |- context [(if negb ?b then os_makedirs dest else ?k) w] =>
    destruct ((if negb b then os_makedirs dest else k) w) as [r0 w0] eqn:Hprep end.
  apply prepare_directory_spec in Hprep as (prefix & Ht0 & Hpre & Hr0).
  destruct Hr0 as [[e ->]|[-> Hd]].
  { intros [= <- <-]. exists prefix, []. rewrite app_nil_r. eauto 8. }
  pose proof (is_dir_not_empty _ _ Hd) as He.
  unfold os_path_exists at 1. rewrite bind_gets. unfold bind at 1.
  fold (archive_path dest).
  set (dl := if negb _ then _ else _).
  assert (Hdl : forall r1 w1, dl w0 = (r1, w1) ->
            exists pre1, trace w1 = (trace w0 ++ pre1)%list
              /\ Forall (fun e => is_extract e = false) pre1
              /\ dirs_kept w0 w1 /\ r1 <> OutOfFuel).
  { intros r1 w1. subst dl. destruct (negb _).
    - intros Hdl. apply download_model_spec in Hdl as (Ht & Hk & Hf); [|done..].
      eexists. split; [exact Ht|]. split; [by repeat constructor|done].
    - intros [= <- <-]. exists []. rewrite app_nil_r.
      repeat split; [by constructor|by intros ?|done]. }
  destruct (dl w0) as [r1 w1]. destruct (Hdl _ _ eq_refl) as (pre1 & Ht1 & Hpre1 & Hk1 & Hf1).
  destruct r1 as [downloaded|e|]; [| |done].
  2:{ intros [= <- <-]. exists (prefix ++ pre1)%list, [].
      rewrite app_nil_r, Ht1, Ht0, app_assoc.
      split; [done|]. split; [by apply Forall_app|]. eauto. }
  unfold bind at 1.
  destruct (extract_loop MAX_RETRY dest downloaded false 0 w1) as [rl w2] eqn:Hloop.
  apply extract_loop_attempts in Hloop as (evs & Ht2 & Hat);
    [|lia|done|by apply Hk1].
  intros Hfin. exists (prefix ++ pre1)%list, evs. split.
  { destruct rl as [[]|e|]; simpl in Hfin; injection Hfin as <- <-;
      rewrite Ht2, Ht1, Ht0; by rewrite <- !app_assoc. }
  split; [by apply Forall_app|]. right. exists rl. split; [done|].
  pose proof (attempts_not_out_of_fuel _ _ _ _ Hat).
  destruct rl as [[]|e|]; simpl in Hfin; injection Hfin as <- <-; eauto 8.
  done.
Qed.

(** ** Consequences of the shape *)

Lemma count_events_app p evs1 evs2 :
  count_events p (evs1 ++ evs2) = count_events p evs1 + count_events p evs2.
Proof. unfold count_events. by rewrite List.filter_app, length_app. Qed.

Lemma count_events_none p evs :
  Forall (fun e => p e = false) evs -> count_events p evs = 0.
Proof.
  unfold count_events. induction 1 as [|e evs He _ IH]; simpl; [done|].
  by rewrite He.
Qed.



(** An extraction event found in [prefix ++ evs] lies in [evs] when the
    prefix holds none. *)
Lemma extract_after_prefix prefix evs pre x rest :
  Forall (fun e => is_extract e = false) prefix ->
  is_extract x = true ->
  (prefix ++ evs = pre ++ x :: rest)%list ->
  exists pre', pre = (prefix ++ pre')%list /\ evs = (pre' ++ x :: rest)%list.
Proof.
  intros Hp Hx. revert pre.
  induction Hp as [|p prefix Hpx _ IH]; intros pre Heq; simpl in *.
  - by exists pre.
  - destruct pre as [|p' pre]; simpl in Heq.
    + injection Heq as -> _. congruence.
    + injection Heq as -> Heq. destruct (IH _ Heq) as (pre' & -> & ->).
      by exists pre'.
Qed.

Ltac length_absurd H :=
  apply (f_equal length) in H;
  repeat (rewrite length_app in H || simpl in H); lia.


(** The last attempt the retry bound allows: if it fails on the archive,
    one re-download follows and nothing else. *)
Lemma attempts_last_failure dest cnt evs r l1 a' d' e' post :
  attempts dest cnt evs r ->
  MAX_RETRY <= S cnt ->
  evs = (l1 ++ EvExtract a' d' (Some e') :: post)%list ->
  is_archive_error e' = true ->
  l1 = [] /\ post = [EvUrlretrieve DATA_URL (archive_path dest)]
  /\ r <> Ret true.
Proof.
  intros Hat Hmax Heq Harch.
  destruct Hat as [|cnt archive|cnt archive e|cnt archive e e0
                   |cnt archive e evs r Hlt Harch' Hat].
  - by destruct l1.
  - destruct l1 as [|? [|? ?]]; simpl in Heq; discriminate.
  - destruct l1 as [|? [|? ?]]; simpl in Heq; try discriminate.
    injection Heq as _ _ <- _. congruence.
  - destruct l1 as [|? [|? [|? ?]]]; simpl in Heq; try discriminate.
    by injection Heq as _ _ _ <-.
  - inversion Hat; try lia. subst.
    destruct l1 as [|? [|? [|? ?]]]; simpl in Heq; try discriminate.
    by injection Heq as _ _ _ <-.
Qed.

Lemma attempts_two_failures dest evs r pre a d e mid a' d' e' post :
  attempts dest 0 evs r ->
  evs = (pre ++ EvExtract a d (Some e) :: mid
             ++ EvExtract a' d' (Some e') :: post)%list ->
  is_archive_error e' = true ->
  post = [EvUrlretrieve DATA_URL (archive_path dest)] /\ r <> Ret true.
Proof.
  intros Hat Heq Harch. remember 0 as c eqn:Hc.
  destruct Hat as [|cnt archive|cnt archive e0|cnt archive e0 e1
                   |cnt archive e0 evs r Hlt Harch' Hat]; subst cnt.
  - unfold MAX_RETRY in *. lia.
  - length_absurd Heq.
  - length_absurd Heq.
  - destruct pre, mid; simpl in Heq; first [discriminate|length_absurd Heq].
  - destruct pre as [|p0 [|p1 pre]]; simpl in Heq.
    + injection Heq as _ _ _ Heq.
      destruct mid as [|m mid]; simpl in Heq; [discriminate|].
      injection Heq as _ Heq.
      eapply attempts_last_failure in Hat as (_ & Hpost & Hr); eauto.
    + discriminate.
    + injection Heq as _ _ Heq.
      rewrite app_comm_cons, app_assoc in Heq.
      eapply attempts_last_failure in Hat as (Hnil & _); eauto.
      by destruct pre.
Qed.

(** ** The retry policy *)

Lemma is_extracted_model_dir_pure directory w :
  (is_extracted_model_dir directory w).2 = w.
Proof. unfold is_extracted_model_dir. by rewrite all_exist_spec. Qed.


(** ** A failed attempt, step by step *)

Lemma join_not_empty a b :
  Py.is_empty a = false -> Py.is_empty (Py.os_path_join a b) = false.
Proof.
  unfold Py.os_path_join. intros Ha.
  destruct (Py.starts_with_slash b) eqn:Hb; [by destruct b|].
  destruct a; [done|]. by destruct (_ || _).
Qed.

Lemma lookup_path_insert_node_eq p n w :
  Py.is_empty p = false -> lookup_path (insert_node p n w) p = Some n.
Proof.
  intros Hp. unfold lookup_path, insert_node. simpl. rewrite Hp.
  apply lookup_insert_eq.
Qed.

(** What an extraction leaves alone: the oracles, and the kind of every
    file. *)
Lemma write_members_frame dest members w :
  let w' := foldl (fun w m => write_member dest m w) w members in
  net w' = net w /\ tar w' = tar w
  /\ forall p c, lookup_path w p = Some (File c) ->
       exists c', lookup_path w' p = Some (File c').
Proof.
  revert w. induction members as [|m members IH]; intros w; simpl.
  - eauto.
  - destruct (IH (write_member dest m w)) as (Hn & Ht & Hf).
    assert (Hstep : net (write_member dest m w) = net w
                    /\ tar (write_member dest m w) = tar w
                    /\ forall p c, lookup_path w p = Some (File c) ->
                         exists c', lookup_path (write_member dest m w) p
                                    = Some (File c')).
    { unfold write_member.
      destruct (lookup_path w (Py.os_path_join dest m.1)) as [[|c0]|] eqn:Hl;
        [eauto| |];
        (destruct (Py.is_empty (Py.os_path_join dest m.1)) eqn:He; [eauto|]);
        (split; [done|split; [done|]]); intros p c Hp;
        unfold lookup_path, insert_node in *; simpl;
        (destruct (Py.is_empty p); [done|]);
        (destruct (decide (Py.os_path_abspath (cwd w) (Py.os_path_join dest m.1)
                           = Py.os_path_abspath (cwd w) p)) as [->|Hne];
         [rewrite lookup_insert_eq|rewrite lookup_insert_ne by done]; eauto). }
    destruct Hstep as (Hn1 & Ht1 & Hf1).
    split; [congruence|]. split; [congruence|].
    intros p c Hp. destruct (Hf1 p c Hp) as [c1 Hp1]. eauto.
Qed.

(** A download the network delivers, into an existing directory. *)
Lemma download_model_delivers url dst_dir content rest w :
  is_dir w dst_dir ->
  net w = Retrieved (Some content) :: rest ->
  let path := Py.os_path_join dst_dir (Py.last_item (Py.split "/" url)) in
  lookup_path w path <> Some Dir ->
  download_model url dst_dir w
  = (Ret path,
     insert_node path (File content)
       (with_net rest (record (EvUrlretrieve url path) w))).
Proof.
  intros Hd Hnet path Hp.
  pose proof (is_dir_not_empty _ _ Hd) as He.
  pose proof (join_not_empty dst_dir (Py.last_item (Py.split "/" url)) He) as Hpe.
  rewrite download_model_into_dir by done. cbv zeta. fold path.
  set (w1 := with_net rest (record (EvUrlretrieve url path) w)).
  assert (Hurl : urlretrieve url path w
                 = (Ret tt, insert_node path (File content) w1)).
  { unfold urlretrieve. rewrite bind_emit, bind_gets.
    change (net (record (EvUrlretrieve url path) w)) with (net w).
    rewrite Hnet, bind_modify, bind_gets. fold path in Hpe. rewrite Hpe.
    change (lookup_path _ path) with (lookup_path w path).
    by destruct (lookup_path w path) as [[|c]|]. }
  unfold bind at 1, try_except. rewrite Hurl.
  unfold os_path_exists. rewrite bind_gets.
  rewrite lookup_path_insert_node_eq by done.
  by rewrite bool_decide_eq_true_2.
Qed.

(** An extraction of an archive that is a file: the next outcome of the
    oracle. *)
Lemma tarfile_extractall_answer archive content dest o rest w :
  lookup_path w archive = Some (File content) ->
  tar w = o :: rest ->
  tarfile_extractall archive dest w
  = match o with
    | Extracted members =>
        (Ret tt,
         foldl (fun w m => write_member dest m w)
               (record (EvExtract archive dest None) (with_tar rest w)) members)
    | ExtractRaises e members =>
        (Raise e,
         foldl (fun w m => write_member dest m w)
               (record (EvExtract archive dest (Some e)) (with_tar rest w))
               members)
    end.
Proof.
  intros Ha Ht. unfold tarfile_extractall. rewrite bind_gets, Ha, bind_gets, Ht.
  rewrite bind_modify. by destruct o.
Qed.

Lemma extract_loop_step fuel dest downloaded cnt w :
  cnt < MAX_RETRY ->
  extract_loop (S fuel) dest downloaded false cnt w
  = (let* extracted :=
       try_except (tarfile_extractall downloaded dest;;; ret true)
                  is_archive_error (fun e => ret false) in
     if extracted then ret true
     else let* downloaded' := download_model DATA_URL dest in
          extract_loop fuel dest downloaded' false (cnt + 1)) w.
Proof.
  intros Hlt. simpl. by destruct (Nat.ltb_spec cnt MAX_RETRY) as [_|?]; [|lia].
Qed.


(** The part of [maybe_download_and_extract] after the directory checks,
    for a model directory that exists and holds no archive yet. *)
Lemma acquisition_into_dir w :
  (is_extracted_model_dir (model_dir (FLAGS w)) w).1 = Ret false ->
  is_dir w (model_dir (FLAGS w)) ->
  lookup_path w (archive_path (model_dir (FLAGS w))) = None ->
  maybe_download_and_extract w
  = (let dest := model_dir (FLAGS w) in
     let* downloaded := download_model DATA_URL dest in
     let* tarfile_extracted :=
       extract_loop MAX_RETRY dest downloaded false 0 in
     if negb tarfile_extracted
     then raise (RuntimeError "Failed to retrieve model files")
     else ret tt) w.
Proof.
  intros Hinvalid Hdir Harchive.
  assert (Hpair : is_extracted_model_dir (model_dir (FLAGS w)) w = (Ret false, w)).
  { pose proof (is_extracted_model_dir_pure (model_dir (FLAGS w)) w) as Hw.
    destruct (is_extracted_model_dir _ _) as [v w0]. simpl in *. congruence. }
  unfold maybe_download_and_extract. rewrite bind_gets. unfold bind at 1.
  rewrite Hpair. cbv zeta. set (dest := model_dir (FLAGS w)) in *.
  unfold os_path_exists, os_path_isdir. rewrite bind_gets.
  unfold is_dir in Hdir.
  rewrite bool_decide_eq_true_2 by (by rewrite Hdir).
  cbn [negb]. unfold bind at 1. rewrite bind_gets, Hdir. cbn [negb].
  unfold ret at 1. cbv beta iota.
  rewrite bind_gets. fold (archive_path dest). rewrite Harchive.
  by rewrite bool_decide_eq_false_2 by (by intros [? ?]).
Qed.





(** C9: when both extraction attempts fail on the archive, the events
    after the second failed attempt are exactly one more download of the
    archive, which nothing extracts, and the procedure then raises. *)
Theorem redownload_after_last_failed_attempt
        (w : world) (evs pre mid post : list event)
        (a d a' d' : string) (e e' : exn) :
  trace (maybe_download_and_extract w).2 = (trace w ++ evs)%list ->
  evs = (pre ++ EvExtract a d (Some e) :: mid
             ++ EvExtract a' d' (Some e') :: post)%list ->
  is_archive_error e' = true ->
  post = [EvUrlretrieve DATA_URL (archive_path (model_dir (FLAGS w)))]
  /\ exists err, (maybe_download_and_extract w).1 = Raise err.
Proof.
  intros Ht Heq Harch.
  destruct (forallb
              (fun f => bool_decide
                 (is_Some (lookup_path w (Py.os_path_join (model_dir (FLAGS w)) f))))
              excepted_files) eqn:Hall.
  { (* a valid directory: no event at all *)
    exfalso. rewrite acquisition_skipped in Ht by done.
    simpl in Ht. rewrite <- (app_nil_r (trace w)) in Ht at 1.
    apply app_inv_head in Ht. subst evs. by destruct pre. }
  destruct (maybe_download_and_extract w) as [r w'] eqn:Hrun.
  assert (Hpair : is_extracted_model_dir (model_dir (FLAGS w)) w = (Ret false, w)).
  { unfold is_extracted_model_dir. by rewrite all_exist_spec, Hall. }
  destruct (acquisition_shape _ _ _ Hpair Hrun)
    as (prefix & evs0 & Ht0 & Hpre & Hshape).
  simpl in Ht. rewrite Ht0 in Ht. apply app_inv_head in Ht. subst evs.
  apply extract_after_prefix in Heq as (pre' & -> & Heq); [|done..].
  destruct Hshape as [[-> _]|(rl & Hat & Hrl)]; [by destruct pre'|].
  destruct (attempts_two_failures _ _ _ _ _ _ _ _ _ _ _ _ Hat Heq Harch)
    as [-> Hrl'].
  split; [done|]. simpl.
  destruct Hrl as [[-> ->]|[[-> [err ->]]|[err [-> ->]]]]; eauto. done.
Qed.

Lemma redownload_after_last_failed_attempt_witness :
  [EvUrlretrieve DATA_URL "/tmp/imagenet/inception-2015-12-05.tgz"]
  = [EvUrlretrieve DATA_URL
       (archive_path (model_dir (FLAGS broken_archive_world)))]
  /\ exists err,
      (maybe_download_and_extract broken_archive_world).1 = Raise err.
Proof.
  apply (redownload_after_last_failed_attempt broken_archive_world
           [EvMakedirs "/tmp/imagenet";
            EvUrlretrieve DATA_URL "/tmp/imagenet/inception-2015-12-05.tgz";
            EvExtract "/tmp/imagenet/inception-2015-12-05.tgz" "/tmp/imagenet"
                      (Some EOFError);
            EvUrlretrieve DATA_URL "/tmp/imagenet/inception-2015-12-05.tgz";
            EvExtract "/tmp/imagenet/inception-2015-12-05.tgz" "/tmp/imagenet"
                      (Some TarError);
            EvUrlretrieve DATA_URL "/tmp/imagenet/inception-2015-12-05.tgz"]
           [EvMakedirs "/tmp/imagenet";
            EvUrlretrieve DATA_URL "/tmp/imagenet/inception-2015-12-05.tgz"]
           [EvUrlretrieve DATA_URL "/tmp/imagenet/inception-2015-12-05.tgz"]
           [EvUrlretrieve DATA_URL "/tmp/imagenet/inception-2015-12-05.tgz"]
           "/tmp/imagenet/inception-2015-12-05.tgz" "/tmp/imagenet"
           "/tmp/imagenet/inception-2015-12-05.tgz" "/tmp/imagenet"
           EOFError TarError).
  - vm_compute. reflexivity.
  - reflexivity.
  - reflexivity.
Defined.

(** ** The download task *)

(** C5 (the code departs from it): [is_valid_url] accepts every string, so
    [download_model] never raises [DownloadError] for a malformed URL.  For
    the URL [not a url] the outcome is whatever the transfer does: the
    [ValueError] urllib raises for a URL without a scheme goes through
    uncaught, and a transfer that delivers makes the call succeed. *)
Theorem download_model_accepts_malformed_url :
  (forall url, is_valid_url url = true)
  /\ (download_model "not a url" "/tmp"
        (tmp_dir_world [RetrieveRaises ValueError])).1
     = Raise ValueError
  /\ (download_model "not a url" "/tmp"
        (tmp_dir_world [Retrieved (Some "data")])).1
     = Ret "/tmp/not a url".
Proof. split; [done|]. split; vm_compute; reflexivity. Qed.

(** ** Warm-up image *)

(** C7: once acquisition has returned, [main] warms the model up with the
    operator-supplied image when that path exists, and with
    [cropped_panda.jpg] of the model directory otherwise; when that file
    does not exist either, [main] raises before the server is started. *)
Theorem warm_up_image_selection (w w1 : world) (requests : list string) :
  maybe_download_and_extract w = (Ret tt, w1) ->
  let supplied := warm_up_image_file (FLAGS w1) in
  let default :=
    Py.os_path_join (Py.os_path_abspath (cwd w1) (model_dir (FLAGS w1)))
                    "cropped_panda.jpg" in
  let w1' := (set_warm_up_image_file default w1).2 in
  (is_Some (lookup_path w1 supplied) ->
   main requests w = (warm_up_model supplied;;; run_httpd requests) w1)
  /\ (lookup_path w1 supplied = None ->
      main requests w = (warm_up_model default;;; run_httpd requests) w1')
  /\ (lookup_path w1 supplied = None -> lookup_path w1 default = None ->
      main requests w
      = (Raise (NotFoundError default), record (EvLogFatal default) w1')).
Proof.
  intros Hacq supplied default w1'.
  assert (Hmain : main requests w
                  = (select_warm_up_image;;;
                     let* image := gets (fun w => warm_up_image_file (FLAGS w)) in
                     warm_up_model image;;; run_httpd requests) w1).
  { unfold main, bind at 1. by rewrite Hacq. }
  assert (Hdefault : lookup_path w1 supplied = None ->
            main requests w = (warm_up_model default;;; run_httpd requests) w1').
  { intros Hnone. rewrite Hmain.
    unfold select_warm_up_image, os_path_exists, bind at 1.
    rewrite !bind_gets. fold supplied. rewrite Hnone.
    rewrite bool_decide_eq_false_2 by (by intros [? ?]).
    rewrite orb_true_r. reflexivity. }
  split; [|split; [done|]].
  - intros Hsome. rewrite Hmain.
    unfold select_warm_up_image, os_path_exists, bind at 1.
    rewrite !bind_gets. fold supplied.
    rewrite bool_decide_eq_true_2 by done.
    assert (He : Py.is_empty supplied = false).
    { unfold lookup_path in Hsome. destruct (Py.is_empty supplied); [|done].
      by destruct Hsome. }
    rewrite He. reflexivity.
  - intros Hnone Hnodefault. rewrite Hdefault by done.
    unfold bind at 1, warm_up_model, gfile_exists, os_path_exists.
    rewrite bind_gets.
    assert (Hl : lookup_path w1' default = None) by exact Hnodefault.
    rewrite Hl. rewrite bool_decide_eq_false_2 by (by intros [? ?]).
    change (negb false) with true. unfold when.
    unfold bind at 1, logging_fatal, emit, modify, read_file.
    assert (Hl' : lookup_path (record (EvLogFatal default) w1') default = None)
      by exact Hnodefault.
    rewrite bind_assoc, bind_gets, Hl'. reflexivity.
Qed.

Lemma warm_up_image_selection_witness :
  let w := sample_world installed_files [] [] in
  let supplied := warm_up_image_file (FLAGS w) in
  let default :=
    Py.os_path_join (Py.os_path_abspath (cwd w) (model_dir (FLAGS w)))
                    "cropped_panda.jpg" in
  let w1' := (set_warm_up_image_file default w).2 in
  (is_Some (lookup_path w supplied) ->
   main [] w = (warm_up_model supplied;;; run_httpd []) w)
  /\ (lookup_path w supplied = None ->
      main [] w = (warm_up_model default;;; run_httpd []) w1')
  /\ (lookup_path w supplied = None -> lookup_path w default = None ->
      main [] w
      = (Raise (NotFoundError default), record (EvLogFatal default) w1')).
Proof.
  apply (warm_up_image_selection (sample_world installed_files [] [])
                                 (sample_world installed_files [] []) []).
  vm_compute. reflexivity.
Defined.

(** The three cases of C7 on concrete disks: a supplied image that exists
    is read, ... *)
Example warm_up_with_supplied_image :
  let w := with_FLAGS (mkFlags "/tmp/imagenet" "/tmp/imagenet/cropped_panda.jpg"
                               5 "0.0.0.0" 8080)
                      (sample_world installed_files [] []) in
  (main [] w).1 = Ret tt
  /\ head (trace (main [] w).2) = Some (EvReadFile "/tmp/imagenet/cropped_panda.jpg").
Proof. vm_compute. done. Qed.

(** ... a missing one is replaced by the default, ... *)
Example warm_up_with_default_image :
  let w := with_FLAGS (mkFlags "/tmp/imagenet" "/home/pi/missing.jpg"
                               5 "0.0.0.0" 8080)
                      (sample_world installed_files [] []) in
  (main [] w).1 = Ret tt
  /\ head (trace (main [] w).2) = Some (EvReadFile "/tmp/imagenet/cropped_panda.jpg").
Proof. vm_compute. done. Qed.

(** ... and without either the process stops before serving. *)
Example warm_up_without_image :
  let w := sample_world (delete "/tmp/imagenet/cropped_panda.jpg" installed_files)
                        [] [] in
  main ["/?image_path=/x.jpg"] w
  = (Raise (NotFoundError "/tmp/imagenet/cropped_panda.jpg"),
     record (EvLogFatal "/tmp/imagenet/cropped_panda.jpg")
            (with_FLAGS (mkFlags "/tmp/imagenet" "/tmp/imagenet/cropped_panda.jpg"
                                 5 "0.0.0.0" 8080) w)).
Proof. vm_compute. reflexivity. Qed.

(** ** Effects in sequence *)

Lemma records_eq evs w :
  records evs w
  = mkWorld (fs w) (cwd w) (FLAGS w) (softmax_tensor w)
            (clock w + duration w evs)%Z (trace w ++ evs)%list
            (net w) (tar w) (engine w) (introsort w)
            (parse_uid_to_human w)
            (parse_node_id_to_uid w) (cost w).
Proof.
  revert w. induction evs as [|e evs IH]; intros w.
  - destruct w. unfold records. simpl. by rewrite Z.add_0_r, app_nil_r.
  - change (records (e :: evs) w) with (records evs (record e w)).
    rewrite IH. simpl. f_equal; [|by rewrite <- app_assoc].
    change (duration (record e w) evs) with (duration w evs). lia.
Qed.

Lemma records_app evs1 evs2 w :
  records (evs1 ++ evs2) w = records evs2 (records evs1 w).
Proof. unfold records. apply foldl_app. Qed.

Lemma trace_records evs w : trace (records evs w) = (trace w ++ evs)%list.
Proof. by rewrite records_eq. Qed.

Lemma clock_records evs w :
  clock (records evs w) = (clock w + duration w evs)%Z.
Proof. by rewrite records_eq. Qed.


(** ** One inference *)



Lemma node_id_to_name_ret uid_to_human items acc w names w' :
  node_id_to_name uid_to_human items acc w = (Ret names, w') -> w' = w.
Proof.
  revert acc. induction items as [|[key val] items IH]; intros acc; simpl.
  - by intros [= <- <-].
  - destruct (uid_to_human !! val); [apply IH|discriminate].
Qed.


Lemma lookup_path_record e w p : lookup_path (record e w) p = lookup_path w p.
Proof. reflexivity. Qed.

Lemma bind_lift {A B} (r : result A) (k : A -> M B) w :
  bind (lift r) k w
  = match r with
    | Ret a => k a w
    | Raise e => (Raise e, w)
    | OutOfFuel => (OutOfFuel, w)
    end.
Proof. by destruct r. Qed.

Lemma bind_read_file {B} path (k : string -> M B) w :
  bind (read_file path) k w
  = match lookup_path w path with
    | Some (File content) => k content (record (EvReadFile path) w)
    | _ => (Raise (NotFoundError path), w)
    end.
Proof.
  unfold read_file. rewrite bind_assoc, bind_gets.
  by destruct (lookup_path w path) as [[|c]|].
Qed.

Lemma bind_gfile_exists {B} path (k : bool -> M B) w :
  bind (gfile_exists path) k w
  = k (bool_decide (is_Some (lookup_path w path))) w.
Proof. reflexivity. Qed.

Lemma bind_when {B} (b : bool) (m : M unit) (k : unit -> M B) w :
  bind (when b m) k w = if b then bind m k w else k tt w.
Proof. by destruct b. Qed.

Lemma bool_decide_is_Some {A} (o : option A) :
  bool_decide (is_Some o) = match o with Some _ => true | None => false end.
Proof.
  destruct o; [by apply bool_decide_eq_true_2|].
  apply bool_decide_eq_false_2. by intros [? ?].
Qed.

Ltac mnorm :=
  repeat first
    [ rewrite bind_emit | rewrite bind_gfile_exists | rewrite bind_gets
    | rewrite bind_read_file | rewrite bind_lift | rewrite bind_ret
    | rewrite bind_when | rewrite bind_modify | rewrite bind_raise
    | rewrite lookup_path_record | rewrite bool_decide_is_Some
    | progress unfold logging_fatal ].

Lemma NodeLookup_load_ret label_lookup_path uid_lookup_path w names w' :
  NodeLookup_load label_lookup_path uid_lookup_path w = (Ret names, w') ->
  w' = records [EvLoadLabels label_lookup_path uid_lookup_path;
                EvReadFile uid_lookup_path; EvReadFile label_lookup_path] w.
Proof.
  unfold NodeLookup_load. mnorm.
  destruct (lookup_path w uid_lookup_path) as [[|cu]|] eqn:Hu;
    cbn [negb]; mnorm; rewrite ?Hu;
    destruct (lookup_path w label_lookup_path) as [[|cl]|] eqn:Hl;
    cbn [negb]; mnorm; rewrite ?Hu; try discriminate;
    (destruct (parse_uid_to_human _ cu) as [uid_to_human|e|]; try discriminate);
    mnorm; rewrite ?Hl; try discriminate; mnorm.
  destruct (parse_node_id_to_uid _ cl) as [node_id_to_uid|e|]; try discriminate.
  intros H. by apply node_id_to_name_ret in H.
Qed.

Lemma format_predictions_spec node_lookup predictions top_k w :
  format_predictions node_lookup predictions top_k w
  = (let lines :=
       map (fun node_id =>
              PredictionLine (id_to_string node_lookup node_id)
                             (TopK.score predictions node_id)) top_k in
     (Ret lines, records (map EvFormat lines) w)).
Proof.
  revert w. induction top_k as [|node_id top_k IH]; intros w; [done|].
  simpl. rewrite bind_emit. unfold bind. rewrite IH. reflexivity.
Qed.

Lemma duration_app w evs1 evs2 :
  duration w (evs1 ++ evs2) = (duration w evs1 + duration w evs2)%Z.
Proof.
  unfold duration. induction evs1 as [|e evs1 IH]; simpl; [done|].
  rewrite IH. lia.
Qed.

(** A successful [run_inference_on_image]: its effects, in order, and the
    elapsed time it reports. *)
Lemma run_inference_on_image_ret image w lines w' :
  run_inference_on_image image w = (Ret lines, w') ->
  exists image_data prediction_lines,
    let dir := model_dir (FLAGS w) in
    let timed :=
      (EvSessRun image_data
       :: EvLoadLabels (Py.os_path_join dir label_lookup_name)
                       (Py.os_path_join dir uid_lookup_name)
       :: EvReadFile (Py.os_path_join dir uid_lookup_name)
       :: EvReadFile (Py.os_path_join dir label_lookup_name)
       :: map EvFormat prediction_lines) in
    lines = (prediction_lines ++ [TimeLine (duration w timed)])%list
    /\ w' = records (EvReadFile image
                     :: timed ++ [EvFormat (TimeLine (duration w timed))]) w.
Proof.
  unfold run_inference_on_image. mnorm.
  destruct (lookup_path w image) as [[|image_data]|] eqn:Hi;
    cbn [negb]; mnorm; rewrite ?Hi; try discriminate.
  unfold time_time. mnorm. set (w1 := record (EvReadFile image) w).
  unfold sess_run. rewrite bind_assoc, bind_gets.
  destruct (softmax_tensor w1) eqn:Ht; [|discriminate].
  rewrite bind_assoc.
  mnorm. set (w2 := record (EvSessRun image_data) w1).
  unfold bind at 1. unfold NodeLookup. mnorm.
  destruct (NodeLookup_load _ _ w2) as [[node_lookup|e|] w3] eqn:Hload;
    try discriminate.
  apply NodeLookup_load_ret in Hload. mnorm.
  unfold bind at 1. rewrite format_predictions_spec. cbv zeta.
  set (prediction_lines := map _ _). mnorm.
  intros [= <- <-]. exists image_data, prediction_lines. cbv zeta.
  set (timed := EvSessRun image_data :: _).
  assert (Hw3 : records (map EvFormat prediction_lines) w3
                = records timed w1).
  { subst w3 timed.
    change (records ?l w2) with (records (EvSessRun image_data :: l) w1).
    by rewrite <- records_app. }
  rewrite Hw3.
  assert (Hd : (clock (records timed w1) - clock w1)%Z = duration w timed).
  { rewrite clock_records. change (duration w1 timed) with (duration w timed).
    lia. }
  change (clock w1) with (clock w + cost w (EvReadFile image))%Z in Hd.
  rewrite Hd. split; [done|].
  change (records (EvReadFile image :: ?l) w) with (records l w1).
  by rewrite records_app.
Qed.

(** ** The reported time *)

(** C4, as amended: the elapsed time of the trailing line is the time from
    just before the [sess.run] call to just after the last prediction line
    is formatted: it covers the run call, the construction of the label
    resolver (reading and parsing both label-map files) and the
    formatting of the result lines; only the reading of the image file
    lies outside. *)
Theorem elapsed_time_spans_run_labels_and_formatting
        (w : world) (image : string) (lines : list line) (w' : world) :
  run_inference_on_image image w = (Ret lines, w') ->
  exists image_data prediction_lines,
    let dir := model_dir (FLAGS w) in
    let timed :=
      (EvSessRun image_data
       :: EvLoadLabels (Py.os_path_join dir label_lookup_name)
                       (Py.os_path_join dir uid_lookup_name)
       :: EvReadFile (Py.os_path_join dir uid_lookup_name)
       :: EvReadFile (Py.os_path_join dir label_lookup_name)
       :: map EvFormat prediction_lines) in
    lines = (prediction_lines ++ [TimeLine (duration w timed)])%list
    /\ trace w'
       = (trace w ++ EvReadFile image
                  :: timed ++ [EvFormat (TimeLine (duration w timed))])%list.
Proof.
  intros Hrun.
  destruct (run_inference_on_image_ret _ _ _ _ Hrun)
    as (image_data & prediction_lines & Hlines & Hw').
  exists image_data, prediction_lines. cbv zeta in *.
  split; [done|]. by rewrite Hw', trace_records.
Qed.

Lemma elapsed_time_spans_run_labels_and_formatting_witness :
  exists image_data prediction_lines,
    let dir := model_dir (FLAGS warmed_world) in
    let timed :=
      (EvSessRun image_data
       :: EvLoadLabels (Py.os_path_join dir label_lookup_name)
                       (Py.os_path_join dir uid_lookup_name)
       :: EvReadFile (Py.os_path_join dir uid_lookup_name)
       :: EvReadFile (Py.os_path_join dir label_lookup_name)
       :: map EvFormat prediction_lines) in
    (run_inference_on_image "/tmp/imagenet/cropped_panda.jpg" warmed_world).1
    = Ret (prediction_lines ++ [TimeLine (duration warmed_world timed)])%list
    /\ trace (run_inference_on_image "/tmp/imagenet/cropped_panda.jpg"
                                     warmed_world).2
       = (trace warmed_world
          ++ EvReadFile "/tmp/imagenet/cropped_panda.jpg"
          :: timed ++ [EvFormat (TimeLine (duration warmed_world timed))])%list.
Proof.
  destruct (elapsed_time_spans_run_labels_and_formatting
              warmed_world "/tmp/imagenet/cropped_panda.jpg"
              [PredictionLine "panda" (7#10); PredictionLine "" (2#10);
               PredictionLine "" (1#10); TimeLine 7]
              (run_inference_on_image "/tmp/imagenet/cropped_panda.jpg"
                                      warmed_world).2)
    as (image_data & prediction_lines & Hlines & Htrace).
  - vm_compute. reflexivity.
  - exists image_data, prediction_lines. cbv zeta in *. split; [|exact Htrace].
    rewrite <- Hlines. vm_compute. reflexivity.
Defined.

(** C4, as stated, fails: where every effect takes one tick the run call
    takes 1 and the reported time is 7. *)
Lemma elapsed_time_is_not_run_time_only :
  ~ reports_run_time_only warmed_world "/tmp/imagenet/cropped_panda.jpg".
Proof.
  intros H.
  destruct (H [PredictionLine "panda" (7#10); PredictionLine "" (2#10);
               PredictionLine "" (1#10); TimeLine 7]
              (run_inference_on_image "/tmp/imagenet/cropped_panda.jpg"
                                      warmed_world).2
              7%Z) as [image_data Hd].
  - vm_compute. reflexivity.
  - reflexivity.
  - vm_compute in Hd. discriminate.
Qed.

(** ** Which effects a part of the program can have *)

Section EmitsOnly.
Variable P : event -> Prop.

Lemma emits_only_ret {A} (a : A) : emits_only P (ret a).
Proof. intros w. exists []. by rewrite app_nil_r. Qed.

Lemma emits_only_raise {A} e : emits_only P (@raise A e).
Proof. intros w. exists []. by rewrite app_nil_r. Qed.

Lemma emits_only_lift {A} (r : result A) : emits_only P (lift r).
Proof. intros w. exists []. by rewrite app_nil_r. Qed.

Lemma emits_only_gets {A} (f : world -> A) : emits_only P (gets f).
Proof. intros w. exists []. by rewrite app_nil_r. Qed.

Lemma emits_only_modify f :
  (forall w, trace (f w) = trace w) -> emits_only P (modify f).
Proof. intros Hf w. exists []. simpl. by rewrite app_nil_r. Qed.

Lemma emits_only_emit e : P e -> emits_only P (emit e).
Proof. intros He w. exists [e]. split; [done|by repeat constructor]. Qed.

Lemma emits_only_bind {A B} (m : M A) (k : A -> M B) :
  emits_only P m -> (forall a, emits_only P (k a)) -> emits_only P (bind m k).
Proof.
  intros Hm Hk w. destruct (Hm w) as (evs1 & Ht1 & Hp1). unfold bind.
  destruct (m w) as [[a|e|] w1]; simpl in *; [|by exists evs1..].
  destruct (Hk a w1) as (evs2 & Ht2 & Hp2).
  exists (evs1 ++ evs2)%list. rewrite Ht2, Ht1, app_assoc.
  split; [done|by apply Forall_app].
Qed.

Lemma emits_only_try_except {A} (m : M A) catches handler :
  emits_only P m -> (forall e, emits_only P (handler e)) ->
  emits_only P (try_except m catches handler).
Proof.
  intros Hm Hh w. destruct (Hm w) as (evs1 & Ht1 & Hp1). unfold try_except.
  destruct (m w) as [[a|e|] w1]; simpl in *; [by exists evs1| |by exists evs1].
  destruct (catches e); [|by exists evs1].
  destruct (Hh e w1) as (evs2 & Ht2 & Hp2).
  exists (evs1 ++ evs2)%list. rewrite Ht2, Ht1, app_assoc.
  split; [done|by apply Forall_app].
Qed.

Lemma emits_only_when (b : bool) (m : M unit) :
  emits_only P m -> emits_only P (when b m).
Proof. destruct b; [done|]. intros _. apply emits_only_ret. Qed.

End EmitsOnly.

Ltac quiet_step :=
  first
    [ apply emits_only_ret | apply emits_only_raise | apply emits_only_lift
    | apply emits_only_gets
    | apply emits_only_emit; reflexivity
    | apply emits_only_modify; intros ?; reflexivity
    | apply emits_only_when
    | apply emits_only_try_except; [|intros ?]
    | apply emits_only_bind; [|intros ?]
    | match goal with
      | |- emits_only _ (if ?b then _ else _) => destruct b
      | |- emits_only _ (match ?x with _ => _ end) => destruct x
      end ].

Ltac quiet := repeat quiet_step.

Lemma quiet_urlretrieve url path :
  emits_only not_load_labels (urlretrieve url path).
Proof. unfold urlretrieve. quiet. Qed.

Lemma quiet_write_members dest members :
  emits_only not_load_labels (write_members dest members).
Proof. apply emits_only_modify. intros w. apply trace_write_members. Qed.

Lemma quiet_os_makedirs directory :
  emits_only not_load_labels (os_makedirs directory).
Proof. unfold os_makedirs. quiet. Qed.

Ltac quiet_known :=
  quiet;
  try first [apply quiet_urlretrieve|apply quiet_write_members
            |apply quiet_os_makedirs].

Lemma quiet_tarfile_extractall downloaded dest :
  emits_only not_load_labels (tarfile_extractall downloaded dest).
Proof. unfold tarfile_extractall. quiet_known. Qed.

Lemma quiet_download_model url dst_dir :
  emits_only not_load_labels (download_model url dst_dir).
Proof.
  unfold download_model, os_path_isdir, os_path_exists.
  quiet_known.
Qed.

Lemma quiet_all_exist directory files :
  emits_only not_load_labels (all_exist directory files).
Proof.
  induction files as [|f files IH]; simpl; unfold os_path_exists; quiet.
  apply IH.
Qed.

Lemma quiet_extract_loop fuel dest :
  forall downloaded extracted cnt,
    emits_only not_load_labels (extract_loop fuel dest downloaded extracted cnt).
Proof.
  induction fuel as [|fuel IH]; intros downloaded extracted cnt; simpl.
  - quiet.
  - quiet_known; apply IH.
Qed.

Lemma quiet_maybe_download_and_extract :
  emits_only not_load_labels maybe_download_and_extract.
Proof.
  unfold maybe_download_and_extract, is_extracted_model_dir,
    os_path_exists, os_path_isdir, os_makedirs.
  quiet_known;
    first [apply quiet_all_exist|apply quiet_extract_loop].
Qed.



Lemma quiet_warm_up_runs n image_data :
  emits_only not_load_labels (warm_up_runs n image_data).
Proof.
  induction n as [|n IH]; simpl; quiet; try apply IH.
Qed.

Lemma quiet_startup : emits_only not_load_labels (main []).
Proof.
  unfold main, select_warm_up_image, default_warm_up_image,
    set_warm_up_image_file, warm_up_model, create_graph, run_httpd,
    gfile_exists, os_path_exists, logging_fatal.
  simpl serve_forever.
  quiet_known.
Qed.

Lemma count_events_format p lines :
  (forall l, p (EvFormat l) = false) ->
  count_events p (map EvFormat lines) = 0.
Proof.
  intros Hp. apply count_events_none. apply Forall_forall.
  intros e He. apply list_elem_of_fmap in He as (l & -> & _). apply Hp.
Qed.

(** ** The label resolver *)

Lemma do_GET_ret path w w' :
  do_GET path w = (Ret tt, w') ->
  exists image image_data prediction_lines elapsed,
    let dir := model_dir (FLAGS w) in
    trace w'
    = (trace w
       ++ [EvReadFile image; EvSessRun image_data;
           EvLoadLabels (Py.os_path_join dir label_lookup_name)
                        (Py.os_path_join dir uid_lookup_name);
           EvReadFile (Py.os_path_join dir uid_lookup_name);
           EvReadFile (Py.os_path_join dir label_lookup_name)]
       ++ map EvFormat prediction_lines
       ++ [EvFormat (TimeLine elapsed); EvSendResponse 200;
           EvSendHeader "Content-type" "text/plain; charset=utf-8";
           EvEndHeaders;
           EvWrite (prediction_lines ++ [TimeLine elapsed])])%list.
Proof.
  unfold do_GET, image_path_of.
  destruct (Py.parse_qsl _) as [|[key image] rest]; [discriminate|].
  rewrite bind_ret. unfold serve_image, bind at 1.
  destruct (run_inference_on_image image w) as [[lines|e|] w1] eqn:Hrun;
    try discriminate.
  apply run_inference_on_image_ret in Hrun
    as (image_data & prediction_lines & Hlines & Hw1).
  cbv zeta in *. mnorm. intros [= <-].
  exists image, image_data, prediction_lines. eexists.
  cbv zeta. simpl. rewrite Hw1, trace_records, Hlines.
  rewrite <- !app_assoc. simpl. rewrite <- !app_assoc. reflexivity.
Qed.

(** C8, as amended: the label resolver is built once for every request
    that is answered, inside that request's inference; startup
    (acquisition, warm-up and the start of the server) builds none. *)
Theorem label_resolver_built_per_request
        (w0 : world) (path : string) (w w' : world) :
  do_GET path w = (Ret tt, w') ->
  count_events is_load_labels (trace (main [] w0).2)
  = count_events is_load_labels (trace w0)
  /\ count_events is_load_labels (trace w')
     = S (count_events is_load_labels (trace w)).
Proof.
  intros Hget. split.
  - destruct (quiet_startup w0) as (evs & -> & Hquiet).
    rewrite count_events_app, (count_events_none _ evs) by done. lia.
  - apply do_GET_ret in Hget
      as (image & image_data & prediction_lines & elapsed & ->).
    rewrite !count_events_app.
    rewrite count_events_format by done. unfold count_events. simpl. lia.
Qed.

Lemma label_resolver_built_per_request_witness :
  count_events is_load_labels
    (trace (main [] (sample_world installed_files [] [])).2)
  = count_events is_load_labels (trace (sample_world installed_files [] []))
  /\ count_events is_load_labels
       (trace (do_GET "/?image_path=/tmp/imagenet/cropped_panda.jpg"
                      warmed_world).2)
     = S (count_events is_load_labels (trace warmed_world)).
Proof.
  apply (label_resolver_built_per_request
           (sample_world installed_files [] [])
           "/?image_path=/tmp/imagenet/cropped_panda.jpg" warmed_world).
  vm_compute. reflexivity.
Defined.

(** C8, as stated, fails: a process that serves two requests parses the
    label maps twice (and one that serves none never does). *)
Lemma label_resolver_rebuilt_for_second_request :
  ~ resolver_built_once
      (sample_world installed_files [] [])
      ["/?image_path=/tmp/imagenet/cropped_panda.jpg";
       "/?image_path=/tmp/imagenet/cropped_panda.jpg"].
Proof. unfold resolver_built_once. vm_compute. discriminate. Qed.

Example label_resolver_not_built_at_startup :
  ~ resolver_built_once (sample_world installed_files [] []) [].
Proof. unfold resolver_built_once. vm_compute. discriminate. Qed.

End ServiceFacts.

(** ** More on the top-K reduction *)

Module TopKMore.
Import TopK TopKFacts.



(** X1: for K <= 0 the slice [[-K:]] does not count from the end: K = 0 keeps
    all n entries, and K < 0 drops the |K| lowest and keeps the rest. *)
Theorem top_k_nonpositive_K
    (introsort : list Q -> list nat) (predictions : list Q) (K : Z) :
  sorts_ascending introsort predictions ->
  (K <= 0)%Z ->
  length (top_k introsort predictions K)
  = length predictions - Z.to_nat (- K).
Proof.
  intros Hsort HK. apply argsort_sorts_ascending in Hsort as [Hperm _].
  assert (Hlen : length (argsort introsort predictions) = length predictions).
  { by rewrite Hperm, length_seq. }
  unfold top_k, slice_from.
  rewrite length_reverse, length_drop, Hlen.
  destruct (Z.ltb_spec (- K) 0); lia.
Qed.

Lemma top_k_nonpositive_K_witness :
  sorts_ascending stable_argsort [1#10; 7#10; 2#10]%Q
  /\ (0 <= 0)%Z
  /\ length (top_k stable_argsort [1#10; 7#10; 2#10]%Q 0)
     = length [1#10; 7#10; 2#10]%Q - Z.to_nat (- 0).
Proof.
  split; [apply stable_argsort_sorts_ascending|]. split; [lia|].
  apply top_k_nonpositive_K; [apply stable_argsort_sorts_ascending|lia].
Defined.

End TopKMore.

(** ** More on the request target *)

Module QueryMore.
Import Service ServiceFacts.

Lemma unreserved_cons c s :
  unreserved (String c s) = true ->
  c <> "&"%char /\ c <> "%"%char /\ c <> "+"%char /\ unreserved s = true.
Proof.
  simpl. rewrite !andb_true_iff, !negb_true_iff, !bool_decide_eq_false.
  tauto.
Qed.

Lemma split_unreserved s :
  unreserved s = true -> Py.split "&" s = [s].
Proof.
  induction s as [|c s IH]; [done|]. intros H.
  apply unreserved_cons in H as (Hamp & _ & _ & Hs). simpl.
  rewrite bool_decide_eq_false_2 by done. by rewrite IH.
Qed.

Lemma replace_char_unreserved s :
  unreserved s = true -> Py.replace_char "+" " " s = s.
Proof.
  induction s as [|c s IH]; [done|]. intros H.
  apply unreserved_cons in H as (_ & _ & Hplus & Hs). simpl.
  rewrite bool_decide_eq_false_2 by done. by rewrite IH.
Qed.

Lemma unquote_unreserved s :
  unreserved s = true -> Py.unquote s = s.
Proof.
  induction s as [|c s IH]; [done|]. intros H.
  apply unreserved_cons in H as (_ & Hpct & _ & Hs). simpl.
  rewrite bool_decide_eq_false_2 by done. rewrite IH by done.
  by destruct s as [|a [|b rest]].
Qed.

(** X2: a request in the reference form [/?image_path=<path>] hands the path
    to the inference unchanged, provided the path is not empty and holds
    none of the characters [&], [%] and [+]. *)
Theorem image_path_passed_verbatim (image : string) (w : world) :
  image <> "" -> unreserved image = true ->
  image_path_of ("/?image_path=" ++ image) w = (Ret image, w).
Proof.
  intros Hne Hplain.
  assert (He : Py.is_empty image = false) by (by destruct image).
  unfold image_path_of.
  change (Py.drop_chars 2 ("/?image_path=" ++ image))
    with ("image_path=" ++ image).
  unfold Py.parse_qsl. rewrite split_unreserved by done.
  cbn [flat_map].
  change (Py.is_empty ("image_path=" ++ image)) with false.
  change (Py.split_once "=" ("image_path=" ++ image))
    with ["image_path"; image].
  cbv iota. rewrite He. cbn [negb app].
  by rewrite replace_char_unreserved, unquote_unreserved.
Qed.

Lemma image_path_passed_verbatim_witness :
  image_path_of ("/?image_path=" ++ "/root/mobike.jpg")
                (sample_world installed_files [] [])
  = (Ret "/root/mobike.jpg", sample_world installed_files [] []).
Proof. apply image_path_passed_verbatim; [discriminate|reflexivity]. Defined.

Lemma replace_char_empty a b s :
  Py.is_empty (Py.replace_char a b s) = Py.is_empty s.
Proof. by destruct s. Qed.

Lemma unquote_empty s : Py.is_empty (Py.unquote s) = Py.is_empty s.
Proof.
  destruct s as [|c [|a [|b rest]]]; try done. simpl.
  by destruct (bool_decide _), (Py.hex_digit a), (Py.hex_digit b).
Qed.

Lemma parse_qsl_values_not_empty qs key value :
  In (key, value) (Py.parse_qsl qs) -> Py.is_empty value = false.
Proof.
  unfold Py.parse_qsl. intros Hin. apply in_flat_map in Hin as (nv & _ & Hin).
  destruct (Py.is_empty nv); [done|].
  destruct (Py.split_once "=" nv) as [|name [|val [|? ?]]]; try done.
  destruct (Py.is_empty val) eqn:Hval; simpl in Hin; [done|].
  destruct Hin as [[= _ <-]|[]].
  by rewrite unquote_empty, replace_char_empty.
Qed.

(** X3: whatever the request target is, the image path the handler extracts is
    never the empty string: pairs with a blank value are dropped by the
    parser, so a target with only such pairs ends in [IndexError]. *)
Theorem image_path_never_empty (path value : string) (w w' : world) :
  image_path_of path w = (Ret value, w') -> value <> "".
Proof.
  unfold image_path_of.
  destruct (Py.parse_qsl _) as [|[key v] rest] eqn:Hq; [discriminate|].
  intros [= <- _] ->.
  assert (Hin : In (key, "") (Py.parse_qsl (Py.drop_chars 2 path))).
  { rewrite Hq. by left. }
  by apply parse_qsl_values_not_empty in Hin.
Qed.

Lemma image_path_never_empty_witness : "/a.jpg" <> "".
Proof.
  apply (image_path_never_empty "/?x=/a.jpg" "/a.jpg"
           (sample_world installed_files [] [])
           (sample_world installed_files [] [])).
  reflexivity.
Defined.

End QueryMore.

(** ** More on the download task *)

Module DownloadMore.
Import Service ServiceFacts.

(** X4: an exception of the transfer: [URLError] and [ConnectionAbortedError]
    become [DownloadError]; an exception of any other class leaves
    [download_model] as it is. *)
Theorem download_model_transfer_exception
        (url dst_dir : string) (e : exn) (rest : list retrieve_outcome)
        (w : world) :
  is_dir w dst_dir ->
  net w = RetrieveRaises e :: rest ->
  (download_model url dst_dir w).1
  = Raise (match e with
           | URLError | ConnectionAbortedError => DownloadError TransferFailed
           | _ => e
           end).
Proof.
  intros Hd Hnet. rewrite download_model_into_dir;
    [|by eapply is_dir_not_empty|done].
  simpl.
  unfold bind at 1, try_except, urlretrieve, emit, bind, modify, gets, raise.
  simpl. rewrite Hnet. by destruct e.
Qed.

Lemma download_model_transfer_exception_witness :
  (download_model DATA_URL "/tmp" (tmp_dir_world [RetrieveRaises OSError])).1
  = Raise OSError.
Proof.
  apply (download_model_transfer_exception DATA_URL "/tmp" OSError []).
  - unfold is_dir. vm_compute. reflexivity.
  - reflexivity.
Defined.

(** X5: when [download_model] returns, it returns the path of the archive
    inside the destination (the working directory for an empty
    destination), and a file or directory exists at that path. *)
Theorem download_model_returns_existing_path
        (url dst_dir path : string) (w w' : world) :
  download_model url dst_dir w = (Ret path, w') ->
  path = Py.os_path_join
           (if Py.is_empty dst_dir then Py.os_path_abspath (cwd w) "."
            else dst_dir)
           (Py.last_item (Py.split "/" url))
  /\ is_Some (lookup_path w' path).
Proof.
  unfold download_model. simpl.
  set (dst := if Py.is_empty dst_dir then Py.os_path_abspath (cwd w) "."
              else dst_dir).
  assert (Hdst : (if Py.is_empty dst_dir
                  then gets (fun w => Py.os_path_abspath (cwd w) ".")
                  else ret dst_dir) w = (Ret dst, w)).
  { subst dst. by destruct (Py.is_empty dst_dir). }
  unfold bind at 1. rewrite Hdst. unfold os_path_isdir. rewrite bind_gets.
  destruct (lookup_path w dst) as [[|c]|]; simpl; try discriminate.
  unfold bind at 1.
  destruct (try_except _ _ _ w) as [[[]|e|] w1]; try discriminate.
  unfold os_path_exists. rewrite bind_gets.
  destruct (bool_decide _) eqn:Hex; simpl; [|discriminate].
  intros [= <- <-]. split; [done|]. by apply bool_decide_eq_true in Hex.
Qed.

Lemma download_model_returns_existing_path_witness :
  "/tmp/inception-2015-12-05.tgz"
  = Py.os_path_join
      (if Py.is_empty "/tmp"
       then Py.os_path_abspath (cwd (tmp_dir_world [Retrieved (Some "tgz")])) "."
       else "/tmp")
      (Py.last_item (Py.split "/" DATA_URL))
  /\ is_Some (lookup_path
                (download_model DATA_URL "/tmp"
                   (tmp_dir_world [Retrieved (Some "tgz")])).2
                "/tmp/inception-2015-12-05.tgz").
Proof.
  apply (download_model_returns_existing_path DATA_URL "/tmp").
  vm_compute. reflexivity.
Defined.

End DownloadMore.

(** ** More on model acquisition *)

Module AcquisitionMore.
Import Service ServiceFacts.

Lemma invalid_pair w :
  (is_extracted_model_dir (model_dir (FLAGS w)) w).1 = Ret false ->
  is_extracted_model_dir (model_dir (FLAGS w)) w = (Ret false, w).
Proof.
  intros Hinvalid.
  pose proof (is_extracted_model_dir_pure (model_dir (FLAGS w)) w) as Hw.
  destruct (is_extracted_model_dir _ _) as [v w0]. simpl in *. congruence.
Qed.

(** X6: a model directory path that names a regular file stops the
    acquisition at once: [RuntimeError], nothing created, nothing
    downloaded. *)
Theorem acquisition_rejects_file_as_directory (w : world) (content : string) :
  (is_extracted_model_dir (model_dir (FLAGS w)) w).1 = Ret false ->
  lookup_path w (model_dir (FLAGS w)) = Some (File content) ->
  maybe_download_and_extract w
  = (Raise (RuntimeError "exists but it is NOT a directory!"), w).
Proof.
  intros Hinvalid Hfile. apply invalid_pair in Hinvalid.
  unfold maybe_download_and_extract. rewrite bind_gets. unfold bind at 1.
  rewrite Hinvalid.
  unfold os_path_exists at 1, os_path_isdir. rewrite bind_gets.
  rewrite bool_decide_eq_true_2 by (by rewrite Hfile).
  cbn [negb]. unfold bind at 1. rewrite bind_gets, Hfile. reflexivity.
Qed.

Lemma acquisition_rejects_file_as_directory_witness :
  maybe_download_and_extract
    (sample_world {[ "/tmp/imagenet" := File "not a directory" ]} [] [])
  = (Raise (RuntimeError "exists but it is NOT a directory!"),
     sample_world {[ "/tmp/imagenet" := File "not a directory" ]} [] []).
Proof.
  apply (acquisition_rejects_file_as_directory _ "not a directory");
    vm_compute; reflexivity.
Defined.

Lemma extract_loop_first dest fuel cnt downloaded w r w' :
  cnt < MAX_RETRY -> MAX_RETRY - S cnt <= fuel -> is_dir w dest ->
  extract_loop (S fuel) dest downloaded false cnt w = (r, w') ->
  exists raised evs,
    trace w' = (trace w ++ EvExtract downloaded dest raised :: evs)%list.
Proof.
  intros Hlt Hfuel Hd. simpl.
  destruct (Nat.ltb_spec cnt MAX_RETRY) as [_|?]; [|lia]. simpl.
  destruct (tarfile_extractall_spec downloaded dest w) as (raised & Ht & Hk & Hr).
  unfold bind at 1, try_except. unfold bind at 1.
  destruct (tarfile_extractall downloaded dest w) as [r1 w1]; simpl in *.
  subst r1. destruct raised as [e|]; simpl.
  2:{ intros [= <- <-]. by exists None, []. }
  destruct (is_archive_error e); simpl.
  2:{ intros [= <- <-]. by exists (Some e), []. }
  unfold bind at 1.
  destruct (download_model DATA_URL dest w1) as [r2 w2] eqn:Hdl.
  apply download_model_spec in Hdl as (Ht2 & Hk2 & _);
    [|by eapply is_dir_not_empty|by apply Hk].
  destruct r2 as [d'|e'|].
  - intros Hl. apply extract_loop_attempts in Hl as (evs & Ht3 & _);
      [|unfold MAX_RETRY in *; lia|by eapply is_dir_not_empty|by apply Hk2, Hk].
    exists (Some e). eexists. rewrite Ht3, Ht2, Ht. by rewrite <- !app_assoc.
  - intros [= <- <-]. exists (Some e). eexists.
    rewrite Ht2, Ht. by rewrite <- !app_assoc.
  - intros [= <- <-]. exists (Some e). eexists.
    rewrite Ht2, Ht. by rewrite <- !app_assoc.
Qed.

(** X7: an archive already lying in the model directory is not downloaded
    again: the first effect of the acquisition is the extraction of that
    file. *)
Theorem acquisition_extracts_existing_archive (w : world) (content : string) :
  (is_extracted_model_dir (model_dir (FLAGS w)) w).1 = Ret false ->
  is_dir w (model_dir (FLAGS w)) ->
  lookup_path w (archive_path (model_dir (FLAGS w))) = Some (File content) ->
  exists raised evs,
    trace (maybe_download_and_extract w).2
    = (trace w
       ++ EvExtract (archive_path (model_dir (FLAGS w))) (model_dir (FLAGS w))
                    raised :: evs)%list.
Proof.
  intros Hinvalid Hdir Harchive. apply invalid_pair in Hinvalid.
  unfold maybe_download_and_extract. rewrite bind_gets. unfold bind at 1.
  rewrite Hinvalid.
  set (dest := model_dir (FLAGS w)) in *.
  unfold os_path_exists, os_path_isdir. rewrite bind_gets.
  unfold is_dir in Hdir.
  rewrite bool_decide_eq_true_2 by (by rewrite Hdir).
  cbn [negb]. unfold bind at 1. rewrite bind_gets, Hdir. cbn [negb].
  unfold ret at 1. cbv beta iota.
  rewrite bind_gets. fold (archive_path dest).
  rewrite bool_decide_eq_true_2 by (by rewrite Harchive).
  cbn [negb]. rewrite bind_ret. unfold bind at 1.
  destruct (extract_loop MAX_RETRY dest (archive_path dest) false 0 w)
    as [rl w2] eqn:Hloop.
  change MAX_RETRY with (S 1) in Hloop.
  apply extract_loop_first in Hloop as (raised & evs & Ht);
    [|unfold MAX_RETRY; lia..|done].
  exists raised, evs.
  by destruct rl as [[]|e|].
Qed.

Lemma acquisition_extracts_existing_archive_witness :
  let w := sample_world
             {[ "/tmp/imagenet" := Dir;
                "/tmp/imagenet/inception-2015-12-05.tgz" := File "partial" ]}
             [Retrieved (Some "tgz")] [ExtractRaises EOFError []; Extracted bundle] in
  exists raised evs,
    trace (maybe_download_and_extract w).2
    = (trace w
       ++ EvExtract (archive_path (model_dir (FLAGS w))) (model_dir (FLAGS w))
                    raised :: evs)%list.
Proof.
  apply (acquisition_extracts_existing_archive _ "partial");
    vm_compute; reflexivity.
Defined.

Lemma attempts_success_last dest cnt evs :
  attempts dest cnt evs (Ret true) ->
  exists before archive, evs = (before ++ [EvExtract archive dest None])%list.
Proof.
  remember (Ret true) as r eqn:Hr. induction 1
    as [| | | |cnt archive e evs r Hlt Harch Hat IH]; try discriminate.
  - by exists [], archive.
  - destruct (IH Hr) as (before & arch & ->).
    by exists (EvExtract archive dest (Some e)
               :: EvUrlretrieve DATA_URL (archive_path dest) :: before), arch.
Qed.

(** X8: the acquisition reports success only on a successful extraction, and
    that extraction is its last effect: nothing is downloaded or
    extracted after it. *)
Theorem acquisition_success_ends_with_extraction (w w' : world) :
  (is_extracted_model_dir (model_dir (FLAGS w)) w).1 = Ret false ->
  maybe_download_and_extract w = (Ret tt, w') ->
  exists before archive,
    trace w'
    = (trace w ++ before ++ [EvExtract archive (model_dir (FLAGS w)) None])%list.
Proof.
  intros Hinvalid Hrun.
  apply invalid_pair in Hinvalid as Hpair.
  destruct (acquisition_shape _ _ _ Hpair Hrun)
    as (prefix & evs & Ht & _ & Hshape).
  destruct Hshape as [[_ [e [=]]]|(rl & Hat & Hrl)].
  destruct Hrl as [[-> _]|[[_ [e [=]]]|[e [_ [=]]]]].
  apply attempts_success_last in Hat as (before & archive & ->).
  exists (prefix ++ before)%list, archive. by rewrite Ht, <- !app_assoc.
Qed.

Lemma acquisition_success_ends_with_extraction_witness :
  let w := sample_world ∅ [Retrieved (Some "tgz")] [Extracted bundle] in
  exists before archive,
    trace (maybe_download_and_extract w).2
    = (trace w ++ before ++ [EvExtract archive (model_dir (FLAGS w)) None])%list.
Proof.
  apply (acquisition_success_ends_with_extraction
           (sample_world ∅ [Retrieved (Some "tgz")] [Extracted bundle]));
    vm_compute; reflexivity.
Defined.

(** X9: the retry loop is bounded: with [MAX_RETRY] as fuel the acquisition
    always comes to an end, with a result or an exception. *)
Theorem acquisition_terminates (w : world) :
  (maybe_download_and_extract w).1 <> OutOfFuel.
Proof.
  destruct (forallb
              (fun f => bool_decide
                 (is_Some (lookup_path w (Py.os_path_join (model_dir (FLAGS w)) f))))
              excepted_files) eqn:Hall.
  - by rewrite acquisition_skipped.
  - assert (Hpair : is_extracted_model_dir (model_dir (FLAGS w)) w = (Ret false, w)).
    { unfold is_extracted_model_dir. by rewrite all_exist_spec, Hall. }
    destruct (maybe_download_and_extract w) as [r w'] eqn:Hrun.
    destruct (acquisition_shape _ _ _ Hpair Hrun)
      as (prefix & evs & _ & _ & Hshape). simpl.
    destruct Hshape as [[_ [e ->]]|(rl & _ & Hrl)]; [done|].
    by destruct Hrl as [[_ ->]|[[_ [e ->]]|[e [_ ->]]]].
Qed.

End AcquisitionMore.

(** ** Acquisition, end to end *)

Module RecoveryMore.
Import Service ServiceFacts.

Lemma first_try_run
      (w : world) (content : string) (members : list (string * string))
      (rest : list retrieve_outcome) (rest' : list extract_outcome) :
  (is_extracted_model_dir (model_dir (FLAGS w)) w).1 = Ret false ->
  is_dir w (model_dir (FLAGS w)) ->
  lookup_path w (archive_path (model_dir (FLAGS w))) = None ->
  net w = Retrieved (Some content) :: rest ->
  tar w = Extracted members :: rest' ->
  let dest := model_dir (FLAGS w) in
  maybe_download_and_extract w
  = (Ret tt,
     foldl (fun w m => write_member dest m w)
       (record (EvExtract (archive_path dest) dest None)
          (with_tar rest'
             (insert_node (archive_path dest) (File content)
                (with_net rest
                   (record (EvUrlretrieve DATA_URL (archive_path dest)) w)))))
       members).
Proof.
  intros Hinvalid Hdir Harchive Hnet Htar dest.
  rewrite acquisition_into_dir by assumption. cbv zeta. fold dest.
  unfold bind at 1.
  rewrite (download_model_delivers DATA_URL dest content rest);
    [|assumption|assumption
     |cbv zeta; fold (archive_path dest); fold dest in Harchive;
      rewrite Harchive; discriminate].
  cbv zeta. fold (archive_path dest).
  set (w1 := insert_node _ _ _).
  unfold bind at 1. change MAX_RETRY with (S 1) at 1.
  rewrite extract_loop_step by (unfold MAX_RETRY; lia).
  unfold bind at 1, try_except. unfold bind at 1.
  rewrite (tarfile_extractall_answer _ content dest (Extracted members) rest').
  - reflexivity.
  - subst w1. apply lookup_path_insert_node_eq.
    apply join_not_empty. by eapply is_dir_not_empty.
  - exact Htar.
Qed.

(** X10: scenario B: a model directory without archive, a network that
    delivers and an archive that extracts: one download, one extraction,
    success. *)
Theorem acquisition_first_try
        (w : world) (content : string) (members : list (string * string))
        (rest : list retrieve_outcome) (rest' : list extract_outcome) :
  (is_extracted_model_dir (model_dir (FLAGS w)) w).1 = Ret false ->
  is_dir w (model_dir (FLAGS w)) ->
  lookup_path w (archive_path (model_dir (FLAGS w))) = None ->
  net w = Retrieved (Some content) :: rest ->
  tar w = Extracted members :: rest' ->
  (maybe_download_and_extract w).1 = Ret tt
  /\ trace (maybe_download_and_extract w).2
     = (trace w
        ++ [EvUrlretrieve DATA_URL (archive_path (model_dir (FLAGS w)));
            EvExtract (archive_path (model_dir (FLAGS w)))
                      (model_dir (FLAGS w)) None])%list.
Proof.
  intros Hinvalid Hdir Harchive Hnet Htar.
  rewrite (first_try_run w content members rest rest') by assumption.
  cbv zeta. split; [reflexivity|].
  cbn [snd]. rewrite trace_write_members.
  cbn [trace record with_tar insert_node with_net with_fs].
  by rewrite <- app_assoc.
Qed.

Lemma acquisition_first_try_witness :
  let w := sample_world {[ "/tmp/imagenet" := Dir ]}
                        [Retrieved (Some "tgz")] [Extracted bundle] in
  (maybe_download_and_extract w).1 = Ret tt
  /\ trace (maybe_download_and_extract w).2
     = (trace w
        ++ [EvUrlretrieve DATA_URL (archive_path (model_dir (FLAGS w)));
            EvExtract (archive_path (model_dir (FLAGS w)))
                      (model_dir (FLAGS w)) None])%list.
Proof.
  apply (acquisition_first_try _ "tgz" bundle [] []); vm_compute; reflexivity.
Defined.

Lemma second_try_run
      (w : world) (content content' : string) (e : exn)
      (partial members : list (string * string))
      (rest : list retrieve_outcome) (rest' : list extract_outcome) :
  (is_extracted_model_dir (model_dir (FLAGS w)) w).1 = Ret false ->
  is_dir w (model_dir (FLAGS w)) ->
  lookup_path w (archive_path (model_dir (FLAGS w))) = None ->
  net w = Retrieved (Some content) :: Retrieved (Some content') :: rest ->
  tar w = ExtractRaises e partial :: Extracted members :: rest' ->
  is_archive_error e = true ->
  let dest := model_dir (FLAGS w) in
  let archive := archive_path dest in
  let w1 := insert_node archive (File content)
              (with_net (Retrieved (Some content') :: rest)
                 (record (EvUrlretrieve DATA_URL archive) w)) in
  let w2 := foldl (fun w m => write_member dest m w)
              (record (EvExtract archive dest (Some e))
                 (with_tar (Extracted members :: rest') w1)) partial in
  let w3 := insert_node archive (File content')
              (with_net rest (record (EvUrlretrieve DATA_URL archive) w2)) in
  maybe_download_and_extract w
  = (Ret tt,
     foldl (fun w m => write_member dest m w)
       (record (EvExtract archive dest None) (with_tar rest' w3)) members).
Proof.
  intros Hinvalid Hdir Harchive Hnet Htar Harch dest archive w1 w2 w3.
  pose proof (is_dir_not_empty _ _ Hdir) as Hne. fold dest in Hne.
  pose proof (join_not_empty dest (Py.last_item (Py.split "/" DATA_URL)) Hne)
    as Hpe. fold (archive_path dest) in Hpe. fold archive in Hpe.
  fold dest in Hdir, Harchive. fold archive in Harchive.
  rewrite acquisition_into_dir by assumption. cbv zeta. fold dest.
  unfold bind at 1.
  rewrite (download_model_delivers DATA_URL dest content
             (Retrieved (Some content') :: rest));
    [|assumption|assumption
     |cbv zeta; fold (archive_path dest); fold archive;
      rewrite Harchive; discriminate].
  cbv zeta. fold (archive_path dest). fold archive. fold w1.
  assert (Hfile1 : lookup_path w1 archive = Some (File content)).
  { subst w1. by apply lookup_path_insert_node_eq. }
  assert (Hd1 : is_dir w1 dest).
  { subst w1. apply dirs_kept_insert_file; [|assumption|assumption].
    change (lookup_path _ archive) with (lookup_path w archive).
    rewrite Harchive. discriminate. }
  unfold bind at 1. change MAX_RETRY with (S 1) at 1.
  rewrite extract_loop_step by (unfold MAX_RETRY; lia).
  unfold bind at 1, try_except. unfold bind at 1.
  rewrite (tarfile_extractall_answer _ content dest
             (ExtractRaises e partial) (Extracted members :: rest'));
    [|exact Hfile1|exact Htar].
  rewrite Harch. fold w2. unfold ret at 1. cbv beta iota.
  destruct (write_members_frame dest partial
              (record (EvExtract archive dest (Some e))
                      (with_tar (Extracted members :: rest') w1)))
    as (Hn2 & Ht2 & Hf2). fold w2 in Hn2, Ht2, Hf2.
  assert (Hd2 : is_dir w2 dest).
  { subst w2. by apply dirs_kept_write_members. }
  destruct (Hf2 archive content Hfile1) as [c2 Hfile2].
  unfold bind at 1.
  rewrite (download_model_delivers DATA_URL dest content' rest);
    [|assumption|exact Hn2
     |cbv zeta; fold (archive_path dest); fold archive;
      rewrite Hfile2; discriminate].
  cbv zeta. fold (archive_path dest). fold archive. fold w3.
  rewrite extract_loop_step by (unfold MAX_RETRY; lia).
  unfold bind at 1, try_except. unfold bind at 1.
  rewrite (tarfile_extractall_answer _ content' dest (Extracted members) rest');
    [reflexivity|subst w3; by apply lookup_path_insert_node_eq|exact Ht2].
Qed.

(** X11: scenario C: the first extraction fails on the archive, the archive is
    downloaded again and the second extraction succeeds: two downloads,
    two extractions, success. *)
Theorem acquisition_recovers_from_corrupt_archive
        (w : world) (content content' : string) (e : exn)
        (partial members : list (string * string))
        (rest : list retrieve_outcome) (rest' : list extract_outcome) :
  (is_extracted_model_dir (model_dir (FLAGS w)) w).1 = Ret false ->
  is_dir w (model_dir (FLAGS w)) ->
  lookup_path w (archive_path (model_dir (FLAGS w))) = None ->
  net w = Retrieved (Some content) :: Retrieved (Some content') :: rest ->
  tar w = ExtractRaises e partial :: Extracted members :: rest' ->
  is_archive_error e = true ->
  (maybe_download_and_extract w).1 = Ret tt
  /\ trace (maybe_download_and_extract w).2
     = (trace w
        ++ [EvUrlretrieve DATA_URL (archive_path (model_dir (FLAGS w)));
            EvExtract (archive_path (model_dir (FLAGS w)))
                      (model_dir (FLAGS w)) (Some e);
            EvUrlretrieve DATA_URL (archive_path (model_dir (FLAGS w)));
            EvExtract (archive_path (model_dir (FLAGS w)))
                      (model_dir (FLAGS w)) None])%list.
Proof.
  intros Hinvalid Hdir Harchive Hnet Htar Harch.
  rewrite (second_try_run w content content' e partial members rest rest')
    by assumption.
  cbv zeta. split; [reflexivity|].
  cbn [snd]. rewrite trace_write_members.
  cbn [trace record with_tar insert_node with_net with_fs].
  rewrite trace_write_members.
  cbn [trace record with_tar insert_node with_net with_fs].
  by rewrite <- !app_assoc.
Qed.

Lemma acquisition_recovers_from_corrupt_archive_witness :
  let w := sample_world {[ "/tmp/imagenet" := Dir ]}
             [Retrieved (Some "broken"); Retrieved (Some "tgz")]
             [ExtractRaises EOFError []; Extracted bundle] in
  (maybe_download_and_extract w).1 = Ret tt
  /\ trace (maybe_download_and_extract w).2
     = (trace w
        ++ [EvUrlretrieve DATA_URL (archive_path (model_dir (FLAGS w)));
            EvExtract (archive_path (model_dir (FLAGS w)))
                      (model_dir (FLAGS w)) (Some EOFError);
            EvUrlretrieve DATA_URL (archive_path (model_dir (FLAGS w)));
            EvExtract (archive_path (model_dir (FLAGS w)))
                      (model_dir (FLAGS w)) None])%list.
Proof.
  apply (acquisition_recovers_from_corrupt_archive
           _ "broken" "tgz" EOFError [] bundle [] []);
    vm_compute; reflexivity.
Defined.

End RecoveryMore.

(** ** What the acquisition touches *)

Module EffectsMore.
Import Service ServiceFacts.

(** X12: the model directory is valid exactly when each of the three names
    exists in it, as a file or as a directory: nothing is opened or
    parsed, and the check leaves the world as it was. *)
Theorem model_dir_valid_iff_names_exist (directory : string) (w : world) :
  exists valid,
    is_extracted_model_dir directory w = (Ret valid, w)
    /\ (valid = true
        <-> forall filename, filename ∈ excepted_files ->
              is_Some (lookup_path w (Py.os_path_join directory filename))).
Proof.
  unfold is_extracted_model_dir. rewrite all_exist_spec.
  eexists. split; [reflexivity|].
  rewrite forallb_forall. split.
  - intros H f Hf. eapply bool_decide_eq_true_1, H. by apply list_elem_of_In.
  - intros H f Hf. apply bool_decide_eq_true_2, H. by apply list_elem_of_In.
Qed.

Lemma acquires_urlretrieve url path : emits_only acquires (urlretrieve url path).
Proof. unfold urlretrieve. quiet. Qed.

Lemma acquires_write_members dest members :
  emits_only acquires (write_members dest members).
Proof. apply emits_only_modify. intros w. apply trace_write_members. Qed.

Lemma acquires_os_makedirs directory :
  emits_only acquires (os_makedirs directory).
Proof. unfold os_makedirs. quiet. Qed.

Ltac acquiring :=
  quiet;
  try first [apply acquires_urlretrieve|apply acquires_write_members
            |apply acquires_os_makedirs].

Lemma acquires_tarfile_extractall downloaded dest :
  emits_only acquires (tarfile_extractall downloaded dest).
Proof. unfold tarfile_extractall. acquiring. Qed.

Lemma acquires_download_model url dst_dir :
  emits_only acquires (download_model url dst_dir).
Proof. unfold download_model, os_path_isdir, os_path_exists. acquiring. Qed.

Lemma acquires_all_exist directory files :
  emits_only acquires (all_exist directory files).
Proof.
  induction files as [|f files IH]; simpl; unfold os_path_exists; quiet.
  apply IH.
Qed.

Lemma acquires_extract_loop fuel dest :
  forall downloaded extracted cnt,
    emits_only acquires (extract_loop fuel dest downloaded extracted cnt).
Proof.
  induction fuel as [|fuel IH]; intros downloaded extracted cnt; simpl.
  - quiet.
  - acquiring; first [apply acquires_tarfile_extractall
                     |apply acquires_download_model|apply IH].
Qed.

(** X13: whatever the disk, the network and the archive do, the acquisition
    only creates the model directory, downloads and extracts: it reads no
    model file, creates no graph, runs no session and starts no server. *)
Theorem acquisition_only_acquires (w : world) :
  exists evs,
    trace (maybe_download_and_extract w).2 = (trace w ++ evs)%list
    /\ Forall (fun e => is_acquisition_event e = true) evs.
Proof.
  revert w. change (emits_only acquires maybe_download_and_extract).
  unfold maybe_download_and_extract, is_extracted_model_dir,
    os_path_exists, os_path_isdir, os_makedirs.
  acquiring;
    first [apply acquires_all_exist|apply acquires_extract_loop
          |apply acquires_download_model].
Qed.

End EffectsMore.

(** ** More on the label resolver *)

Module LabelsMore.
Import Service ServiceFacts.

Lemma node_id_to_name_lookup uid_to_human items :
  forall acc w names w',
    NoDup items.*1 ->
    node_id_to_name uid_to_human items acc w = (Ret names, w') ->
    forall node_id,
      names !! node_id
      = match (list_to_map items : gmap nat string) !! node_id with
        | Some uid => uid_to_human !! uid
        | None => acc !! node_id
        end.
Proof.
  induction items as [|[key val] items IH]; intros acc w names w' Hnd; simpl.
  - intros [= <- <-] node_id. by rewrite lookup_empty.
  - apply NoDup_cons in Hnd as [Hkey Hnd].
    destruct (uid_to_human !! val) as [name|] eqn:Hval; [|discriminate].
    intros Hrun node_id. rewrite (IH _ _ _ _ Hnd Hrun node_id).
    destruct (decide (key = node_id)) as [<-|Hne].
    + rewrite lookup_insert_eq.
      rewrite (not_elem_of_list_to_map_1 _ key Hkey).
      by rewrite lookup_insert_eq.
    + by rewrite !lookup_insert_ne by done.
Qed.

Lemma node_id_to_name_missing uid_to_human items :
  forall acc w,
    (exists key val, (key, val) ∈ items /\ uid_to_human !! val = None) ->
    exists uid,
      uid_to_human !! uid = None
      /\ node_id_to_name uid_to_human items acc w
         = (Raise KeyError, record (EvLogFatal uid) w).
Proof.
  induction items as [|[key val] items IH]; intros acc w (k & v & Hin & Hv).
  - by apply elem_of_nil in Hin.
  - simpl. destruct (uid_to_human !! val) as [name|] eqn:Hval.
    + apply IH. exists k, v. split; [|done].
      apply elem_of_cons in Hin as [[= -> ->]|Hin]; [congruence|done].
    + exists val. split; [done|reflexivity].
Qed.

(** X14: a label table that [NodeLookup.load] returns is the composition of
    the two parsed maps: a node id resolves to the human string of its
    UID, and an id the label map does not list resolves to the empty
    string. *)
Theorem label_table_is_composition
        (label_lookup_path uid_lookup_path : string) (w w' : world)
        (names : gmap nat string) :
  NodeLookup_load label_lookup_path uid_lookup_path w = (Ret names, w') ->
  exists uids labels uid_to_human node_id_to_uid,
    lookup_path w uid_lookup_path = Some (File uids)
    /\ lookup_path w label_lookup_path = Some (File labels)
    /\ parse_uid_to_human w uids = Ret uid_to_human
    /\ parse_node_id_to_uid w labels = Ret node_id_to_uid
    /\ (forall node_id uid,
          node_id_to_uid !! node_id = Some uid ->
          exists name, uid_to_human !! uid = Some name
                       /\ id_to_string names node_id = name)
    /\ (forall node_id,
          node_id_to_uid !! node_id = None ->
          id_to_string names node_id = "").
Proof.
  unfold NodeLookup_load. mnorm.
  destruct (lookup_path w uid_lookup_path) as [[|cu]|] eqn:Hu;
    cbn [negb]; mnorm; rewrite ?Hu;
    destruct (lookup_path w label_lookup_path) as [[|cl]|] eqn:Hl;
    cbn [negb]; mnorm; rewrite ?Hu; try discriminate;
    (destruct (parse_uid_to_human _ cu) as [uid_to_human|e|] eqn:Hpu;
     try discriminate);
    mnorm; rewrite ?Hl; try discriminate; mnorm.
  destruct (parse_node_id_to_uid _ cl) as [node_id_to_uid|e|] eqn:Hpn;
    try discriminate.
  intros Hjoin. exists cu, cl, uid_to_human, node_id_to_uid.
  repeat (split; [done|]).
  pose proof (node_id_to_name_lookup _ _ _ _ _ _
                (NoDup_fst_map_to_list node_id_to_uid) Hjoin) as Hlookup.
  rewrite list_to_map_to_list in Hlookup.
  split.
  - intros node_id uid Hid. specialize (Hlookup node_id). rewrite Hid in Hlookup.
    unfold id_to_string. rewrite Hlookup.
    destruct (uid_to_human !! uid) as [name|] eqn:Hname; [eauto|].
    exfalso.
    destruct (node_id_to_name_missing uid_to_human (map_to_list node_id_to_uid) ∅
                (record (EvReadFile label_lookup_path)
                   (record (EvReadFile uid_lookup_path)
                      (record (EvLoadLabels label_lookup_path uid_lookup_path) w))))
      as (u & _ & Hfail).
    { exists node_id, uid. split; [by apply elem_of_map_to_list|done]. }
    congruence.
  - intros node_id Hid. specialize (Hlookup node_id). rewrite Hid in Hlookup.
    unfold id_to_string. by rewrite Hlookup, lookup_empty.
Qed.

Lemma label_table_is_composition_witness :
  exists uids labels uid_to_human node_id_to_uid,
    lookup_path warmed_world "/tmp/imagenet/imagenet_synset_to_human_label_map.txt"
    = Some (File uids)
    /\ lookup_path warmed_world
         "/tmp/imagenet/imagenet_2012_challenge_label_map_proto.pbtxt"
       = Some (File labels)
    /\ parse_uid_to_human warmed_world uids = Ret uid_to_human
    /\ parse_node_id_to_uid warmed_world labels = Ret node_id_to_uid
    /\ (forall node_id uid,
          node_id_to_uid !! node_id = Some uid ->
          exists name, uid_to_human !! uid = Some name
                       /\ id_to_string {[ 1 := "panda" ]} node_id = name)
    /\ (forall node_id,
          node_id_to_uid !! node_id = None ->
          id_to_string {[ 1 := "panda" ]} node_id = "").
Proof.
  apply (label_table_is_composition
           "/tmp/imagenet/imagenet_2012_challenge_label_map_proto.pbtxt"
           "/tmp/imagenet/imagenet_synset_to_human_label_map.txt"
           warmed_world
           (NodeLookup_load
              "/tmp/imagenet/imagenet_2012_challenge_label_map_proto.pbtxt"
              "/tmp/imagenet/imagenet_synset_to_human_label_map.txt"
              warmed_world).2).
  vm_compute. reflexivity.
Defined.

(** X15: a UID of the label map that the UID file does not name makes
    [NodeLookup.load] fail with [KeyError]. *)
Theorem label_table_missing_uid
        (label_lookup_path uid_lookup_path uids labels : string)
        (uid_to_human : gmap string string) (node_id_to_uid : gmap nat string)
        (node_id : nat) (uid : string) (w : world) :
  lookup_path w uid_lookup_path = Some (File uids) ->
  lookup_path w label_lookup_path = Some (File labels) ->
  parse_uid_to_human w uids = Ret uid_to_human ->
  parse_node_id_to_uid w labels = Ret node_id_to_uid ->
  node_id_to_uid !! node_id = Some uid ->
  uid_to_human !! uid = None ->
  (NodeLookup_load label_lookup_path uid_lookup_path w).1 = Raise KeyError.
Proof.
  intros Hu Hl Hpu Hpn Hid Hmissing.
  unfold NodeLookup_load. mnorm. rewrite !Hu, ?Hl. cbn [negb]. mnorm.
  rewrite ?Hl.
  change (parse_uid_to_human _ uids) with (parse_uid_to_human w uids).
  rewrite Hpu. mnorm. rewrite ?Hl. mnorm.
  change (parse_node_id_to_uid _ labels) with (parse_node_id_to_uid w labels).
  rewrite Hpn.
  match goal with |- (node_id_to_name _ _ _ ?w1).1 = _ =>
    destruct (node_id_to_name_missing uid_to_human (map_to_list node_id_to_uid)
                ∅ w1) as (u & _ & ->) end; [|done].
  exists node_id, uid. split; [by apply elem_of_map_to_list|done].
Qed.

Lemma label_table_missing_uid_witness :
  (NodeLookup_load "/tmp/imagenet/imagenet_2012_challenge_label_map_proto.pbtxt"
                   "/tmp/imagenet/imagenet_synset_to_human_label_map.txt"
                   mislabelled_world).1
  = Raise KeyError.
Proof.
  apply (label_table_missing_uid _ _ "uids" "labels"
           {[ "n01" := "panda" ]} {[ 7 := "n07" ]} 7 "n07");
    vm_compute; reflexivity.
Defined.

(** X16: a label-map file that does not exist is logged as fatal and then the
    read raises: the resolver is not built. *)
Theorem label_table_missing_file
        (label_lookup_path uid_lookup_path : string) (w : world) :
  lookup_path w uid_lookup_path = None ->
  NodeLookup_load label_lookup_path uid_lookup_path w
  = (Raise (NotFoundError uid_lookup_path),
     (if bool_decide (is_Some (lookup_path w label_lookup_path))
      then records [EvLoadLabels label_lookup_path uid_lookup_path;
                    EvLogFatal uid_lookup_path]
      else records [EvLoadLabels label_lookup_path uid_lookup_path;
                    EvLogFatal uid_lookup_path;
                    EvLogFatal label_lookup_path]) w).
Proof.
  intros Hu. unfold NodeLookup_load. mnorm. rewrite Hu. cbn [negb]. mnorm.
  destruct (lookup_path w label_lookup_path) as [n|]; cbn [negb]; mnorm;
    reflexivity.
Qed.

Lemma label_table_missing_file_witness :
  let w := sample_world ∅ [] [] in
  NodeLookup_load "/tmp/imagenet/labels.pbtxt" "/tmp/imagenet/uids.txt" w
  = (Raise (NotFoundError "/tmp/imagenet/uids.txt"),
     (if bool_decide (is_Some (lookup_path w "/tmp/imagenet/labels.pbtxt"))
      then records [EvLoadLabels "/tmp/imagenet/labels.pbtxt"
                                 "/tmp/imagenet/uids.txt";
                    EvLogFatal "/tmp/imagenet/uids.txt"]
      else records [EvLoadLabels "/tmp/imagenet/labels.pbtxt"
                                 "/tmp/imagenet/uids.txt";
                    EvLogFatal "/tmp/imagenet/uids.txt";
                    EvLogFatal "/tmp/imagenet/labels.pbtxt"]) w).
Proof. apply label_table_missing_file. reflexivity. Defined.

End LabelsMore.

(** ** More on serving *)

Module ServingMore.
Import Service ServiceFacts.

Section OnlyRecords.
Variable P : event -> Prop.

Lemma only_records_ret {A} (a : A) : only_records P (ret a).
Proof. intros w. by exists []. Qed.

Lemma only_records_raise {A} e : only_records P (@raise A e).
Proof. intros w. by exists []. Qed.

Lemma only_records_lift {A} (r : result A) : only_records P (lift r).
Proof. intros w. by exists []. Qed.

Lemma only_records_gets {A} (f : world -> A) : only_records P (gets f).
Proof. intros w. by exists []. Qed.

Lemma only_records_emit e : P e -> only_records P (emit e).
Proof. intros He w. exists [e]. split; [done|by repeat constructor]. Qed.

Lemma only_records_bind {A B} (m : M A) (k : A -> M B) :
  only_records P m -> (forall a, only_records P (k a)) ->
  only_records P (bind m k).
Proof.
  intros Hm Hk w. destruct (Hm w) as (evs1 & Hw1 & Hp1). unfold bind.
  destruct (m w) as [[a|e|] w1]; simpl in *; [|by exists evs1..].
  destruct (Hk a w1) as (evs2 & Hw2 & Hp2).
  exists (evs1 ++ evs2)%list. rewrite Hw2, Hw1, records_app.
  split; [done|by apply Forall_app].
Qed.

Lemma only_records_try_except {A} (m : M A) catches handler :
  only_records P m -> (forall e, only_records P (handler e)) ->
  only_records P (try_except m catches handler).
Proof.
  intros Hm Hh w. destruct (Hm w) as (evs1 & Hw1 & Hp1). unfold try_except.
  destruct (m w) as [[a|e|] w1]; simpl in *; [by exists evs1| |by exists evs1].
  destruct (catches e); [|by exists evs1].
  destruct (Hh e w1) as (evs2 & Hw2 & Hp2).
  exists (evs1 ++ evs2)%list. rewrite Hw2, Hw1, records_app.
  split; [done|by apply Forall_app].
Qed.

Lemma only_records_when (b : bool) (m : M unit) :
  only_records P m -> only_records P (when b m).
Proof. destruct b; [done|]. intros _. apply only_records_ret. Qed.

End OnlyRecords.

Ltac recording_step :=
  first
    [ apply only_records_ret | apply only_records_raise
    | apply only_records_lift | apply only_records_gets
    | apply only_records_emit; reflexivity
    | apply only_records_when
    | apply only_records_try_except; [|intros ?]
    | apply only_records_bind; [|intros ?]
    | match goal with
      | |- only_records _ (if ?b then _ else _) => destruct b
      | |- only_records _ (match ?x with _ => _ end) => destruct x
      end ].

Ltac recording := repeat recording_step.

Section Inference.
Variable P : event -> Prop.
Hypothesis P_read : forall path, P (EvReadFile path).
Hypothesis P_log : forall path, P (EvLogFatal path).
Hypothesis P_load : forall l u, P (EvLoadLabels l u).
Hypothesis P_run : forall data, P (EvSessRun data).
Hypothesis P_format : forall l, P (EvFormat l).

Lemma only_records_node_id_to_name uid_to_human items acc :
  only_records P (node_id_to_name uid_to_human items acc).
Proof.
  revert acc. induction items as [|[key val] items IH]; intros acc; simpl.
  - apply only_records_ret.
  - destruct (uid_to_human !! val); [apply IH|].
    apply only_records_bind; [by apply only_records_emit|intros ?].
    apply only_records_raise.
Qed.

Lemma only_records_format_predictions node_lookup predictions top_k :
  only_records P (format_predictions node_lookup predictions top_k).
Proof.
  induction top_k as [|node_id top_k IH]; simpl.
  - apply only_records_ret.
  - apply only_records_bind; [by apply only_records_emit|intros ?].
    apply only_records_bind; [apply IH|intros ?]. apply only_records_ret.
Qed.

Lemma only_records_read_file path : only_records P (read_file path).
Proof.
  unfold read_file. apply only_records_bind; [apply only_records_gets|].
  intros [[|c]|]; try apply only_records_raise.
  apply only_records_bind; [by apply only_records_emit|intros ?].
  apply only_records_ret.
Qed.

Lemma only_records_check_exists path :
  only_records P
    (let* file_exists := gfile_exists path in
     when (negb file_exists) (logging_fatal path)).
Proof.
  apply only_records_bind; [apply only_records_gets|intros b].
  apply only_records_when. by apply only_records_emit.
Qed.

Lemma only_records_NodeLookup_load label_lookup_path uid_lookup_path :
  only_records P (NodeLookup_load label_lookup_path uid_lookup_path).
Proof.
  unfold NodeLookup_load.
  apply only_records_bind; [by apply only_records_emit|intros _].
  apply only_records_bind; [apply only_records_gets|intros b1].
  apply only_records_bind;
    [apply only_records_when; by apply only_records_emit|intros _].
  apply only_records_bind; [apply only_records_gets|intros b2].
  apply only_records_bind;
    [apply only_records_when; by apply only_records_emit|intros _].
  apply only_records_bind; [apply only_records_read_file|intros uids].
  apply only_records_bind; [apply only_records_gets|intros parse_uid].
  apply only_records_bind; [apply only_records_lift|intros uid_to_human].
  apply only_records_bind; [apply only_records_read_file|intros labels].
  apply only_records_bind; [apply only_records_gets|intros parse_node].
  apply only_records_bind; [apply only_records_lift|intros node_id_to_uid].
  apply only_records_node_id_to_name.
Qed.

Lemma only_records_sess_run image_data :
  only_records P (sess_run image_data).
Proof.
  unfold sess_run. apply only_records_bind; [apply only_records_gets|].
  intros []; [|apply only_records_raise].
  apply only_records_bind; [by apply only_records_emit|intros _].
  apply only_records_gets.
Qed.

Lemma only_records_run_inference_on_image image :
  only_records P (run_inference_on_image image).
Proof.
  unfold run_inference_on_image.
  apply only_records_bind; [apply only_records_gets|intros b].
  apply only_records_bind;
    [apply only_records_when; by apply only_records_emit|intros _].
  apply only_records_bind; [apply only_records_read_file|intros image_data].
  apply only_records_bind; [apply only_records_gets|intros start_time].
  apply only_records_bind; [apply only_records_sess_run|intros predictions].
  apply only_records_bind.
  { unfold NodeLookup. apply only_records_bind; [apply only_records_gets|].
    intros dir. apply only_records_NodeLookup_load. }
  intros node_lookup.
  apply only_records_bind; [apply only_records_gets|intros k].
  apply only_records_bind; [apply only_records_format_predictions|intros lines].
  apply only_records_bind; [apply only_records_gets|intros now].
  apply only_records_bind; [by apply only_records_emit|intros _].
  apply only_records_ret.
Qed.

End Inference.

(** X17: handling a request changes nothing but the clock and the trace: it
    reads files, logs, runs the session, builds the label table, formats
    and answers, and leaves the file system, the flags, the session
    handle and the network and archive oracles as they were. *)
Theorem request_only_records (path : string) (w : world) :
  exists evs,
    (do_GET path w).2 = records evs w
    /\ Forall (fun e => is_request_event e = true) evs.
Proof.
  revert w. change (only_records (fun e => is_request_event e = true) (do_GET path)).
  unfold do_GET, image_path_of, serve_image.
  apply only_records_bind.
  { destruct (Py.parse_qsl _) as [|[key value] rest];
      [apply only_records_raise|apply only_records_ret]. }
  intros image_path.
  apply only_records_bind;
    [by apply only_records_run_inference_on_image|intros lines].
  recording.
Qed.



(** X19: an image that does not exist is logged as fatal and then the read
    raises: the session is not run, the label maps are not read, and
    nothing but the log entry is left behind. *)
Theorem missing_image_raises_before_inference (image : string) (w : world) :
  lookup_path w image = None ->
  run_inference_on_image image w
  = (Raise (NotFoundError image), record (EvLogFatal image) w).
Proof.
  intros Hnone. unfold run_inference_on_image. mnorm. rewrite Hnone.
  cbn [negb]. mnorm. by rewrite ?Hnone.
Qed.

Lemma missing_image_raises_before_inference_witness :
  run_inference_on_image "/nowhere.jpg" warmed_world
  = (Raise (NotFoundError "/nowhere.jpg"),
     record (EvLogFatal "/nowhere.jpg") warmed_world).
Proof. apply missing_image_raises_before_inference. reflexivity. Defined.







End ServingMore.

(** ** More on startup *)

Module StartupMore.
Import Service ServiceFacts.

Lemma warm_up_runs_spec n image_data w :
  softmax_tensor w = true ->
  warm_up_runs n image_data w
  = (Ret tt, records (replicate n (EvSessRun image_data)) w).
Proof.
  revert w. induction n as [|n IH]; intros w Ht; [reflexivity|].
  simpl. unfold sess_run. rewrite bind_assoc, bind_gets, Ht.
  rewrite bind_assoc, bind_emit, bind_gets. by rewrite IH.
Qed.

Ltac warm_up_image Hi :=
  unfold warm_up_model, create_graph; mnorm; rewrite ?Hi; cbn [negb]; mnorm.

Ltac warm_up_graph image w Hg :=
  rewrite !bind_assoc; mnorm;
  change (FLAGS (record (EvReadFile image) w)) with (FLAGS w);
  rewrite !bind_assoc; mnorm; rewrite ?Hg.

Lemma warm_up_model_run image image_data graph_def w :
  lookup_path w image = Some (File image_data) ->
  lookup_path w (Py.os_path_join (model_dir (FLAGS w)) graph_def_name)
  = Some (File graph_def) ->
  warm_up_model image w = (Ret tt, warmed_up image image_data w).
Proof.
  intros Hi Hg. warm_up_image Hi. warm_up_graph image w Hg.
  by rewrite warm_up_runs_spec.
Qed.

(** X22: every warm-up that succeeds has read the image and the graph file,
    created the graph, set the global tensor and then run the session ten
    times on the image, keeping no result; the files are as they were. *)
Theorem warm_up_model_success_shape (image : string) (w w' : world) :
  warm_up_model image w = (Ret tt, w') ->
  exists image_data graph_def,
    lookup_path w image = Some (File image_data)
    /\ lookup_path w (Py.os_path_join (model_dir (FLAGS w)) graph_def_name)
       = Some (File graph_def)
    /\ w' = warmed_up image image_data w
    /\ softmax_tensor w' = true
    /\ fs w' = fs w.
Proof.
  destruct (lookup_path w image) as [[|image_data]|] eqn:Hi;
    [warm_up_image Hi; discriminate| |warm_up_image Hi; discriminate].
  destruct (lookup_path w (Py.os_path_join (model_dir (FLAGS w)) graph_def_name))
    as [[|graph_def]|] eqn:Hg;
    [warm_up_image Hi; warm_up_graph image w Hg; discriminate|
    |warm_up_image Hi; warm_up_graph image w Hg; discriminate].
  rewrite (warm_up_model_run _ _ _ _ Hi Hg). intros [= <-].
  exists image_data, graph_def. repeat (split; [done|]).
  unfold warmed_up. by rewrite !records_eq.
Qed.

Lemma warm_up_model_success_shape_witness :
  exists image_data graph_def,
    lookup_path (sample_world installed_files [] [])
                "/tmp/imagenet/cropped_panda.jpg" = Some (File image_data)
    /\ lookup_path (sample_world installed_files [] [])
         (Py.os_path_join
            (model_dir (FLAGS (sample_world installed_files [] [])))
            graph_def_name)
       = Some (File graph_def)
    /\ (warm_up_model "/tmp/imagenet/cropped_panda.jpg"
                      (sample_world installed_files [] [])).2
       = warmed_up "/tmp/imagenet/cropped_panda.jpg" image_data
                   (sample_world installed_files [] [])
    /\ softmax_tensor
         (warm_up_model "/tmp/imagenet/cropped_panda.jpg"
                        (sample_world installed_files [] [])).2 = true
    /\ fs (warm_up_model "/tmp/imagenet/cropped_panda.jpg"
                         (sample_world installed_files [] [])).2
       = fs (sample_world installed_files [] []).
Proof.
  apply (warm_up_model_success_shape "/tmp/imagenet/cropped_panda.jpg").
  vm_compute. reflexivity.
Defined.

(** X23: startup, in order: once the model is in place and the warm-up image
    and the graph file are there, [main] warms the model up (ten runs) and
    only then starts the server, which handles the requests with the
    global tensor set. *)
Theorem main_serves_after_warm_up
        (requests : list string) (w w1 : world) (image_data graph_def : string) :
  maybe_download_and_extract w = (Ret tt, w1) ->
  lookup_path w1 (warm_up_image_file (FLAGS w1)) = Some (File image_data) ->
  lookup_path w1 (Py.os_path_join (model_dir (FLAGS w1)) graph_def_name)
  = Some (File graph_def) ->
  let ready := warmed_up (warm_up_image_file (FLAGS w1)) image_data w1 in
  main requests w
  = serve_forever requests
      (record (EvServeForever (httpd_bind_ip (FLAGS w1))
                              (httpd_bind_port (FLAGS w1))) ready)
  /\ softmax_tensor ready = true.
Proof.
  intros Hacq Hi Hg ready.
  assert (Hne : Py.is_empty (warm_up_image_file (FLAGS w1)) = false).
  { unfold lookup_path in Hi. by destruct (Py.is_empty _). }
  assert (Hflags : FLAGS ready = FLAGS w1).
  { subst ready. unfold warmed_up. rewrite (records_eq (replicate _ _)).
    cbn [FLAGS with_softmax_tensor]. by rewrite records_eq. }
  split.
  - unfold main. unfold bind at 1. rewrite Hacq.
    unfold select_warm_up_image, os_path_exists.
    rewrite !bind_assoc. mnorm. rewrite !bind_assoc. mnorm.
    rewrite Hne, Hi. cbn [orb negb]. mnorm.
    unfold bind at 1.
    rewrite (warm_up_model_run _ _ _ _ Hi Hg). fold ready.
    unfold run_httpd. rewrite !bind_gets, bind_emit. by rewrite Hflags.
  - subst ready. unfold warmed_up. by rewrite records_eq.
Qed.

Lemma main_serves_after_warm_up_witness :
  let w := with_FLAGS (mkFlags "/tmp/imagenet" "/tmp/imagenet/cropped_panda.jpg"
                               5 "0.0.0.0" 8080)
                      (sample_world installed_files [] []) in
  let ready := warmed_up "/tmp/imagenet/cropped_panda.jpg" "panda" w in
  main ["/?image_path=/tmp/imagenet/cropped_panda.jpg"] w
  = serve_forever ["/?image_path=/tmp/imagenet/cropped_panda.jpg"]
      (record (EvServeForever "0.0.0.0" 8080) ready)
  /\ softmax_tensor ready = true.
Proof.
  intros w ready.
  apply (main_serves_after_warm_up
           ["/?image_path=/tmp/imagenet/cropped_panda.jpg"] w w "panda" "graph");
    vm_compute; reflexivity.
Defined.

(** X24: the acquisition does not check what the archive held: when the graph
    file is missing after it, startup stops in [create_graph] with the
    read error, having read the warm-up image only; the tensor stays
    unset and the server is not started. *)
Theorem main_fails_without_graph_file
        (requests : list string) (w w1 : world) (image_data : string) :
  maybe_download_and_extract w = (Ret tt, w1) ->
  lookup_path w1 (warm_up_image_file (FLAGS w1)) = Some (File image_data) ->
  lookup_path w1 (Py.os_path_join (model_dir (FLAGS w1)) graph_def_name) = None ->
  main requests w
  = (Raise (NotFoundError (Py.os_path_join (model_dir (FLAGS w1)) graph_def_name)),
     record (EvReadFile (warm_up_image_file (FLAGS w1))) w1).
Proof.
  intros Hacq Hi Hg.
  assert (Hne : Py.is_empty (warm_up_image_file (FLAGS w1)) = false).
  { unfold lookup_path in Hi. by destruct (Py.is_empty _). }
  unfold main. unfold bind at 1. rewrite Hacq.
  unfold select_warm_up_image, os_path_exists.
  rewrite !bind_assoc. mnorm. rewrite !bind_assoc. mnorm.
    rewrite Hne, Hi. cbn [orb negb]. mnorm.
  unfold bind at 1.
  assert (Hwarm : warm_up_model (warm_up_image_file (FLAGS w1)) w1
                  = (Raise (NotFoundError
                              (Py.os_path_join (model_dir (FLAGS w1)) graph_def_name)),
                     record (EvReadFile (warm_up_image_file (FLAGS w1))) w1)).
  { warm_up_image Hi.
    warm_up_graph (warm_up_image_file (FLAGS w1)) w1 Hg. reflexivity. }
  by rewrite Hwarm.
Qed.

Lemma main_fails_without_graph_file_witness :
  let w := with_FLAGS (mkFlags "/tmp/imagenet" "/tmp/imagenet/cropped_panda.jpg"
                               5 "0.0.0.0" 8080)
             (sample_world
                {[ "/tmp/imagenet" := Dir;
                   "/tmp/imagenet/cropped_panda.jpg" := File "panda" ]}
                [Retrieved (Some "tgz")] [Extracted []]) in
  let w1 := (maybe_download_and_extract w).2 in
  main [] w
  = (Raise (NotFoundError (Py.os_path_join (model_dir (FLAGS w1)) graph_def_name)),
     record (EvReadFile (warm_up_image_file (FLAGS w1))) w1).
Proof.
  intros w w1.
  apply (main_fails_without_graph_file [] w w1 "panda");
    vm_compute; reflexivity.
Defined.

End StartupMore.
